(** * quizcards.py: grid fitting, deck building and duplex imposition

    A shallow embedding of the layout core of [quizcards.py] and the
    properties its specification states about it.

    Numbers.  Lengths are Python floats, as in every call of the script
    (the units and page sizes of reportlab are floats), that is IEEE 754
    binary64 numbers: a sum, difference, product or quotient is the exact
    result rounded to the nearest double (ties to even), and may be an
    infinity or a NaN.  The operations are those of the Standard
    Library's [SpecFloat], at precision 53 and exponent bound 1024.  An
    integer that meets a float ([3 * mm], [i1 * cw], the [0] of a default
    margin) is converted first.  Counts ([int(...)] results, loop
    indices) are unbounded integers, [Z] and [nat].

    Objects.  A [Card] is a Python object whose attributes are attached
    dynamically ([setattr], [hasattr], [delattr]); an instance is
    embedded as its attribute dictionary, a [gmap string value], looked
    up before the class attributes.  Objects live in a store and lists
    hold references, as in Python. *)

From Stdlib Require Import ZArith QArith Qround Lia List.
From Stdlib Require Import SpecFloat.
From Stdlib Require Import Decimal DecimalString.
From stdpp Require Import base option list gmap strings.

Local Open Scope Z_scope.

(** ** Exceptions *)

Inductive exn : Set :=
  | ZeroDivisionError
  | OverflowError
  | ValueError
  | IndexError
  | AttributeError
  | NameError
  | TypeError.

Inductive result (A : Type) : Type :=
  | Ok (a : A)
  | Raise (e : exn).
Arguments Ok {A} a.
Arguments Raise {A} e.

#[global] Instance result_ret : MRet result := fun A a => Ok a.
#[global] Instance result_bind : MBind result := fun A B f m =>
  match m with
  | Ok a => f a
  | Raise e => Raise e
  end.

(** ** Python floats *)

Definition float : Set := spec_float.
Definition prec : Z := 53.
Definition emax : Z := 1024.

Declare Scope float_scope.
Delimit Scope float_scope with float.
Bind Scope float_scope with float.

Definition float_add (x y : float) : float := SFadd prec emax x y.
Definition float_sub (x y : float) : float := SFsub prec emax x y.
Definition float_mul (x y : float) : float := SFmul prec emax x y.
Definition float_div (x y : float) : float := SFdiv prec emax x y.
Definition float_neg (x : float) : float := SFopp x.

(** [x < y] and [x <= y]; both are false when a side is a NaN. *)
Definition float_lt (x y : float) : bool := SFltb x y.
Definition float_le (x y : float) : bool := SFleb x y.

(** [x == 0]: true of both zeros. *)
Definition float_is_zero (x : float) : bool :=
  match x with
  | S754_zero _ => true
  | _ => false
  end.

Arguments float_add : simpl never.
Arguments float_sub : simpl never.
Arguments float_mul : simpl never.
Arguments float_div : simpl never.
Arguments float_neg : simpl never.
Arguments float_lt : simpl never.
Arguments float_le : simpl never.

Infix "+" := float_add : float_scope.
Infix "-" := float_sub : float_scope.
Infix "*" := float_mul : float_scope.
Infix "/" := float_div : float_scope.
Notation "- x" := (float_neg x) : float_scope.

(** The double nearest to an integer: the value of an integer literal
    or operand in float arithmetic.  It is the integer itself up to
    [2 ^ 53]. *)
Definition float_of_int (n : Z) : float := binary_normalize prec emax n 0 false.
Arguments float_of_int : simpl never.

(** The double nearest to [n / 10 ^ k]: the value of a decimal literal
    such as [2.54], whose digits [n] and power of ten are doubles
    themselves. *)
Definition float_of_decimal (n : Z) (k : nat) : float :=
  (float_of_int n / float_of_int (10 ^ Z.of_nat k))%float.

(** The rational a finite double stands for. *)
Definition float_value (x : float) : Q :=
  match x with
  | S754_finite s m e =>
      let n := if s then Z.neg m else Z.pos m in
      match e with
      | Z.neg d => n # (2 ^ d)
      | _ => inject_Z (n * 2 ^ e)
      end
  | _ => 0%Q
  end.

(** Truncation toward zero. *)
Definition trunc (x : Q) : Z := Z.quot (Qnum x) (Z.pos (Qden x)).

(** The largest double, [(2 ^ 53 - 1) * 2 ^ 971], and the least integer
    that rounds beyond it. *)
Definition max_float : Z := 2 ^ 1024 - 2 ^ 971.
Definition float_max_int : Z := 2 ^ 1024 - 2 ^ 970.

(** ** Python arithmetic *)

(** [int(x)] on a float: a NaN raises [ValueError], an infinity
    [OverflowError]; a finite double is truncated toward zero.  (A
    finite triple beyond the largest double stands for no double; it is
    read as an infinity.) *)
Definition py_int (x : float) : result Z :=
  match x with
  | S754_nan => Raise ValueError
  | S754_infinity _ => Raise OverflowError
  | _ =>
      let n := trunc (float_value x) in
      if Z.abs n <=? max_float then Ok n else Raise OverflowError
  end.

(** [float(n)], the conversion of an integer operand: [OverflowError]
    when [n] rounds beyond the largest double. *)
Definition py_float (n : Z) : result float :=
  if Z.abs n <? float_max_int then Ok (float_of_int n) else Raise OverflowError.

(** [a / b] on floats, true division. *)
Definition py_truediv (a b : float) : result float :=
  if float_is_zero b then Raise ZeroDivisionError else Ok (a / b)%float.

(** [n * x] for an integer [n] and a float [x]. *)
Definition py_mul_int (n : Z) (x : float) : result float :=
  f ← py_float n; mret (f * x)%float.

(** [a % b] on integers; the result has the sign of [b]. *)
Definition py_mod (a b : Z) : result Z :=
  if b =? 0 then Raise ZeroDivisionError else Ok (a mod b).

(** [range(n)]. *)
Definition range (n : Z) : list Z := map Z.of_nat (seq 0 (Z.to_nat n)).

(** [[f(x) for x in l]]; the first exception ends it. *)
Fixpoint comprehension {A B} (f : A -> result B) (l : list A) : result (list B) :=
  match l with
  | [] => Ok []
  | x :: l => y ← f x; ys ← comprehension f l; mret (y :: ys)
  end.

(** ** Units ([reportlab.lib.units]: [inch = 72.0], [cm = inch / 2.54],
    [mm = cm * 0.1]) *)

Definition inch : float := float_of_int 72.
Definition cm : float := (inch / float_of_decimal 254 2)%float.
Definition mm : float := (cm * float_of_decimal 1 1)%float.

(** [reportlab.lib.pagesizes] *)
Definition A4 : float * float :=
  ((float_of_int 210 * mm)%float, (float_of_int 297 * mm)%float).
Definition landscape (pagesize : float * float) : float * float :=
  let (a, b) := pagesize in
  if float_lt a b then (b, a) else (a, b).

(** ** Utils *)

(** [reverse_seq] on a list. *)
Definition reverse_seq {A} (seq : list A) : list A := reverse seq.

(** [reverse_seq] on a 2-tuple (a page size). *)
Definition reverse_seq2 {A} (seq : A * A) : A * A := (snd seq, fst seq).

(** [class Record]: the four margins it is used for. *)
Record MarginRecord : Set := mkMargins { lm : float; rm : float; tm : float; bm : float }.

(** ** Layouting: the grid fitter *)

Definition maximize_cards_on_page (cardSize pageSize : float * float)
    (margins : option MarginRecord) (autoRotate : bool)
    : result ((float * float) * Z * Z) :=
  let margins :=
    match margins with
    | None =>
        mkMargins (float_of_int 0) (float_of_int 0) (float_of_int 0) (float_of_int 0)
    | Some m => m
    end in
  f1 ← py_truediv (fst pageSize - lm margins - rm margins)%float (fst cardSize);
  f2 ← py_truediv (snd pageSize - bm margins - tm margins)%float (snd cardSize);
  i1 ← py_int f1;
  i2 ← py_int f2;
  let n1 := i1 * i2 in
  g1 ← py_truediv (fst pageSize - lm margins - rm margins)%float (snd cardSize);
  g2 ← py_truediv (snd pageSize - bm margins - tm margins)%float (fst cardSize);
  j1 ← py_int g1;
  j2 ← py_int g2;
  let m1 := j1 * j2 in
  let '(i1, i2, pageSize) :=
    if autoRotate && (m1 >? n1)
    then
      let (i1, i2) := (j1, j2) in
      let pageSize := reverse_seq2 pageSize in
      let (i1, i2) := (i2, i1) in
      (i1, i2, pageSize)
    else (i1, i2, pageSize) in
  let '(i1, i2) :=
    if autoRotate && float_le (fst pageSize) (snd pageSize)
    then
      if float_lt (snd cardSize) (fst cardSize)
      then (i2, i1)
      else (i1, i2)
    else (i1, i2) in
  let newPageSize := pageSize in
  let '(numCardsX, numCardsY) := (i1, i2) in
  mret (newPageSize, numCardsX, numCardsY).

(** ** Platypus flowables and styles

    The paragraph styles are the module-level objects [h1], [bt], [fine]
    and [code]; flowables are opaque to the layout code, which only
    builds lists of them and hands them to the renderer. *)

Inductive style : Set := h1 | bt | fine | code.

Inductive flowable : Set :=
  | Paragraph (text : string) (st : style)
  | XPreformatted (text : string) (st : style)
  | Image (filename : string)
  | Str (s : string).

(** ** Objects with dynamic attributes *)

Inductive value : Set :=
  | VNum (x : float)
  | VInt (n : Z)
  | VBool (b : bool)
  | VStr (s : string)
  | VStory (story : list flowable)
  | VSize (size : float * float)
  | VStyle (st : style)
  | VCanv.

(** Class attributes of [Card] (inherited unchanged by [QuizCard]). *)
Definition Card_class : gmap string value :=
  {[ "lm" := VNum (float_of_int 3 * mm); "rm" := VNum (float_of_int 3 * mm);
     "tm" := VNum (float_of_int 3 * mm); "bm" := VNum (float_of_int 3 * mm);
     "fn" := VStyle bt; "fs" := VInt 10 ]}.

(** Attribute lookup: the instance dictionary first, then the class. *)
Definition getattr (o : gmap string value) (name : string) : result value :=
  match o !! name with
  | Some v => Ok v
  | None =>
      match Card_class !! name with
      | Some v => Ok v
      | None => Raise AttributeError
      end
  end.

Definition hasattr (o : gmap string value) (name : string) : bool :=
  match getattr o name with
  | Ok _ => true
  | Raise _ => false
  end.

Definition setattr (o : gmap string value) (name : string) (v : value)
    : gmap string value :=
  <[name := v]> o.

(** [delattr] only removes instance attributes. *)
Definition delattr (o : gmap string value) (name : string)
    : result (gmap string value) :=
  match o !! name with
  | Some _ => Ok (delete name o)
  | None => Raise AttributeError
  end.

Definition setattrs (o : gmap string value) (dikt : list (string * value))
    : gmap string value :=
  foldl (fun o kv => setattr o kv.1 kv.2) o dikt.

(** [Card.__init__(self, frame=False, debug=False, **dikt)]. *)
Definition Card_init (frame debug : bool) (dikt : list (string * value))
    : gmap string value :=
  let self := setattr ∅ "frame" (VBool frame) in
  let self := setattr self "debug" (VBool debug) in
  setattrs self dikt.

(** An attribute as an operand of float arithmetic: an integer is
    converted. *)
Definition as_num (v : value) : result float :=
  match v with
  | VNum x => Ok x
  | VInt n => py_float n
  | _ => Raise TypeError
  end.
Definition as_size (v : value) : result (float * float) :=
  match v with VSize s => Ok s | _ => Raise TypeError end.
Definition as_story (v : value) : result (list flowable) :=
  match v with VStory s => Ok s | _ => Raise TypeError end.
Definition truthy (v : value) : bool :=
  match v with
  | VBool b => b
  | VNum x => negb (float_is_zero x)
  | VInt n => negb (n =? 0)
  | VStr s => negb (String.eqb s "")
  | VStory s => match s with [] => false | _ => true end
  | VSize _ | VStyle _ | VCanv => true
  end.

(** The store: objects are allocated at the end, a reference is an index.
    The script only holds references to objects it has allocated; a
    reference outside the store reads as an object without instance
    attributes. *)
Definition deref (h : list (gmap string value)) (l : nat) : gmap string value :=
  default ∅ (h !! l).

Definition new (h : list (gmap string value)) (o : gmap string value)
    : nat * list (gmap string value) :=
  (length h, h ++ [o]).

(** ** The deck builder *)

Record item : Set := mkItem { q : flowable; a : flowable }.

(** ["%d" % n] for a natural number. *)
Definition fmt_d (n : nat) : string := NilEmpty.string_of_uint (Nat.to_uint n).

Definition kwDict (cardSize : float * float) (verbose : bool) : list (string * value) :=
  let (cw, ch) := cardSize in
  [ ("lm", VNum (float_of_int 4 * mm)); ("rm", VNum (float_of_int 4 * mm));
    ("text", VStr "");
    ("width", VNum cw); ("height", VNum ch); ("verbose", VBool verbose) ].

Definition QuizCard (dikt : list (string * value)) : gmap string value :=
  Card_init false false dikt.

Definition set_text (h : list (gmap string value)) (l : nat) (story : list flowable)
    : list (gmap string value) :=
  <[l := setattr (deref h l) "text" (VStory story)]> h.

(** The loop of [make_cards_platypus]; the result lists the yielded
    pairs in order. *)
Fixpoint make_cards_loop (cardSize : float * float) (verbose : bool)
    (i : nat) (items : list item) (q_side a_side : nat)
    (questions answers : list flowable) (h : list (gmap string value))
    : list (nat * nat) * list (gmap string value) :=
  match items with
  | [] =>
      let h := set_text h q_side questions in
      let h := set_text h a_side answers in
      ([(q_side, a_side)], h)
  | item :: items =>
      let h := set_text h q_side questions in
      let h := set_text h a_side answers in
      let yielded := (q_side, a_side) in
      let questions := [Paragraph "Question:" fine; q item] in
      let answers :=
        [Paragraph ("Answer " ++ fmt_d (i + 1) ++ ":<br/><br/>") fine; a item] in
      let (q_side, h) := new h (QuizCard (kwDict cardSize verbose)) in
      let (a_side, h) := new h (QuizCard (kwDict cardSize verbose)) in
      let (rest, h) :=
        make_cards_loop cardSize verbose (S i) items q_side a_side
          questions answers h in
      (yielded :: rest, h)
  end.

Definition make_cards_platypus (cardSize : float * float) (cover : list flowable)
    (items : list item) (verbose : bool) (h : list (gmap string value))
    : list (nat * nat) * list (gmap string value) :=
  let (q_side, h) := new h (QuizCard (kwDict cardSize verbose)) in
  let (a_side, h) := new h (QuizCard (kwDict cardSize verbose)) in
  let questions := cover in
  let answers := [] in
  make_cards_loop cardSize verbose 0 items q_side a_side questions answers h.

(** [cards += [q, a]] for every yielded pair. *)
Definition faces {A} (pairs : list (A * A)) : list A :=
  flat_map (fun qa => [qa.1; qa.2]) pairs.

(** ** Layouting: regrouping the faces for double-sided printing *)

(** Every second element, from the first: the stride of [l[::2]]. *)
Fixpoint stride2 {A} (l : list A) : list A :=
  match l with
  | [] => []
  | x :: l' => x :: match l' with [] => [] | _ :: l'' => stride2 l'' end
  end.

(** [l[start:stop:2]] and [l[start::2]] for non-negative bounds. *)
Definition slice2 {A} (l : list A) (start : nat) (stop : option nat) : list A :=
  stride2 (drop start (match stop with Some e => take e l | None => l end)).

(** The [for j, card in enumerate(cards)] loop; [rest] is what is left
    to enumerate. *)
Fixpoint regroup_loop {A} (cards : list A) (i1 i2 : Z) (rest : list A) (j k : nat)
    (cardGroups : list (list A)) : result (nat * list (list A)) :=
  match rest with
  | [] => Ok (k, cardGroups)
  | card :: rest =>
      full ←
        (if (0 <? j)%nat
         then m ← py_mod (Z.of_nat j) (2 * i1 * i2); mret (m =? 0)
         else mret false);
      if full : bool
      then
        let cardGroups := cardGroups ++ [slice2 cards k (Some j)] in
        let cardGroups := cardGroups ++ [slice2 cards (k + 1) (Some (j + 1)%nat)] in
        regroup_loop cards i1 i2 rest (S j) j cardGroups
      else regroup_loop cards i1 i2 rest (S j) k cardGroups
  end.

Definition regroup {A} (cards : list A) (i1 i2 : Z) : result (list (list A)) :=
  '(k, cardGroups) ← regroup_loop cards i1 i2 cards 0 0 [];
  let cardGroups := cardGroups ++ [slice2 cards k None] in
  let cardGroups := cardGroups ++ [slice2 cards (k + 1) None] in
  mret cardGroups.

(** ** Layouting: the cells of a sheet *)

(** One element [(x0 + x * cw, y0 + y * ch)] of the list [coords]. *)
Definition cell (x0 y0 cw ch : float) (x y : Z) : result (float * float) :=
  a ← py_mul_int x cw;
  b ← py_mul_int y ch;
  mret ((x0 + a)%float, (y0 + b)%float).

(** The list [coords] of sheet group number [g]. *)
Definition coords (g : nat) (x0 y0 cw ch : float) (i1 i2 : Z)
    : result (list (float * float)) :=
  if (g mod 2 =? 0)%nat
  then
    rows ←
      comprehension
        (fun y => comprehension (fun x => cell x0 y0 cw ch x y) (range i1))
        (reverse_seq (range i2));
    mret (concat rows)
  else
    rows ←
      comprehension
        (fun y => comprehension (fun x => cell x0 y0 cw ch x y)
                    (reverse_seq (range i1)))
        (reverse_seq (range i2));
    mret (concat rows).

(** [l[i]] for an integer index; negative indices count from the end. *)
Definition py_index {A} (l : list A) (i : Z) : result A :=
  let i := if i <? 0 then i + Z.of_nat (length l) else i in
  if i <? 0 then Raise IndexError
  else match l !! Z.to_nat i with
       | Some x => Ok x
       | None => Raise IndexError
       end.

(** ** Drawing *)

(** What reaches the canvas.  Colour and line-style settings are left
    out; the label carries the numbers it formats. *)
Inductive op : Set :=
  | drawString (x y : float) (args : list float)
  | drawOn (W H : float) (story : list flowable) (x y : float)
  | rect (x y w h : float).

(** The number of cards drawn on a page. *)
Definition cards_on (page : list op) : nat :=
  length
    (List.filter
       (fun o => match o with drawOn _ _ _ _ _ => true | _ => false end) page).

(** [add_size_info_label]. *)
Definition add_size_info_label (canv : list op) (x y : float)
    (pageSize cardSize : float * float) : list op :=
  let args := [fst pageSize; snd pageSize; fst cardSize; snd cardSize] in
  let args := map (fun a => a / mm)%float args in
  canv ++ [drawString x (y + snd cardSize + float_of_int 6)%float args].

(** [QuizCard.resize_images]: the available area is computed first;
    strings become paragraphs; the branch for images refers to the names
    [PIL] and [w], which the module never binds.  The story is updated
    in place. *)
Fixpoint resize_story (story : list flowable) : result (list flowable) :=
  match story with
  | [] => Ok []
  | el :: story =>
      el ← match el with
           | Image _ => Raise NameError
           | Str s => Ok (Paragraph s bt)
           | _ => Ok el
           end;
      story ← resize_story story;
      mret (el :: story)
  end.

Definition resize_images (self : gmap string value) (story : list flowable)
    : result (list flowable) :=
  width ← getattr self "width" ≫= as_num;
  l ← getattr self "lm" ≫= as_num;
  r ← getattr self "rm" ≫= as_num;
  height ← getattr self "height" ≫= as_num;
  t ← getattr self "tm" ≫= as_num;
  b ← getattr self "bm" ≫= as_num;
  let (W, H) := ((width - l - r)%float, (height - t - b)%float) in
  resize_story story.

(** The swap applied to a card of a back sheet. *)
Definition mirror_margins (obj : gmap string value) : result (gmap string value) :=
  if hasattr obj "lm"
  then
    v ← getattr obj "lm";
    let obj := setattr obj "rm" v in
    delattr obj "lm"
  else Ok obj.

(** The printer margins [nppm] of [layout]. *)
Definition nppm : MarginRecord :=
  mkMargins (float_of_decimal 721 2 * mm) (float_of_decimal 721 2 * mm)
    (float_of_decimal 151 1 * mm) (float_of_decimal 151 1 * mm).

Section Layout.

(** The height returned by
    [KeepInFrame(W, H, story, mode="shrink").wrapOn(canv, W, H)]. *)
Variable wrapOn : float -> float -> list flowable -> float.

(** [QuizCard.draw]. *)
Definition draw (self : gmap string value) (canv : list op)
    : result (gmap string value * list op) :=
  XP ← getattr self "xp";
  YP ← getattr self "yp";
  text ← getattr self "text" ≫= as_story;
  story ← resize_images self text;
  let self := setattr self "text" (VStory story) in
  width ← getattr self "width" ≫= as_num;
  l ← getattr self "lm" ≫= as_num;
  r ← getattr self "rm" ≫= as_num;
  yp ← getattr self "yp" ≫= as_num;
  y0 ← getattr self "y0" ≫= as_num;
  b ← getattr self "bm" ≫= as_num;
  let (W, H) := ((width - l - r)%float, (yp - y0 - b)%float) in
  let h := wrapOn W H story in
  xp ← getattr self "xp" ≫= as_num;
  let canv := canv ++ [drawOn W H story xp (yp - h)%float] in
  let self := setattr self "xp" (VNum (xp + float_of_int 0)) in
  let self := setattr self "yp" (VNum (yp + (- h - float_of_int 5 * mm))) in
  mret (self, canv).

(** [Card.end] with [Card.drawFrame]. *)
Definition end_ (self : gmap string value) (canv : list op) : result (list op) :=
  fr ← getattr self "frame";
  if truthy fr
  then
    x0 ← getattr self "x0" ≫= as_num;
    y0 ← getattr self "y0" ≫= as_num;
    width ← getattr self "width" ≫= as_num;
    height ← getattr self "height" ≫= as_num;
    mret (canv ++ [rect x0 y0 width height])
  else mret canv.

(** [Card.render(canv=, x0=, y0=, size=, frame=, debug=)]. *)
Definition render (self : gmap string value) (canv : list op) (x0 y0 : float)
    (size : float * float) (frame debug : bool)
    : result (gmap string value * list op) :=
  let self :=
    setattrs self
      [ ("canv", VCanv); ("x0", VNum x0); ("y0", VNum y0);
        ("size", VSize size); ("frame", VBool frame); ("debug", VBool debug) ] in
  '(width, height) ← getattr self "size" ≫= as_size;
  let self := setattr self "width" (VNum width) in
  let self := setattr self "height" (VNum height) in
  x0 ← getattr self "x0" ≫= as_num;
  l ← getattr self "lm" ≫= as_num;
  let self := setattr self "xp" (VNum (x0 + l)) in
  y0 ← getattr self "y0" ≫= as_num;
  height ← getattr self "height" ≫= as_num;
  t ← getattr self "tm" ≫= as_num;
  let self := setattr self "yp" (VNum (y0 + height - t)) in
  '(self, canv) ← draw self canv;
  canv ← end_ self canv;
  mret (self, canv).

(** The [while j < len(cardGroup)] loop of [layout]; [rest] is
    [cardGroup[j:]]. *)
Fixpoint place_cards (pageSize cardSize : float * float) (i1 i2 : Z)
    (frame debug : bool) (g : nat) (coords : list (float * float))
    (rest : list nat) (j : nat)
    (h : list (gmap string value)) (canv : list op)
    : result (list (gmap string value) * list op) :=
  match rest with
  | [] => Ok (h, canv)
  | obj :: rest =>
      h ← (if negb (g mod 2 =? 0)%nat
           then o ← mirror_margins (deref h obj); mret (<[obj := o]> h)
           else mret h);
      n ← py_mod (Z.of_nat j) (i1 * i2);
      '(x, y) ← py_index coords n;
      let canv :=
        if n =? 0
        then add_size_info_label canv x y pageSize cardSize
        else canv in
      '(o, canv) ← render (deref h obj) canv x y cardSize frame debug;
      let h := <[obj := o]> h in
      place_cards pageSize cardSize i1 i2 frame debug g coords rest (S j) h canv
  end.

(** The [for g, cardGroup in enumerate(cardGroups)] loop of [layout];
    [pages] are the pages shown so far. *)
Fixpoint place_groups (pageSize cardSize : float * float) (i1 i2 : Z)
    (frame debug : bool) (g : nat) (cardGroups : list (list nat))
    (h : list (gmap string value)) (pages : list (list op))
    : result (list (gmap string value) * list (list op)) :=
  match cardGroups with
  | [] => Ok (h, pages)
  | cardGroup :: cardGroups =>
      let (xc, yc) :=
        ((fst pageSize / float_of_int 2)%float,
         (snd pageSize / float_of_int 2)%float) in
      let (cw, ch) := cardSize in
      a ← py_mul_int i1 cw;
      b ← py_mul_int i2 ch;
      let (x0, y0) :=
        ((xc - a / float_of_int 2)%float, (yc - b / float_of_int 2)%float) in
      coords ← coords g x0 y0 cw ch i1 i2;
      '(h, canv) ←
        place_cards pageSize cardSize i1 i2 frame debug g coords cardGroup 0 h [];
      let canv :=
        if frame
        then canv ++ [rect (float_of_int 0) (float_of_int 0)
                        (fst pageSize) (snd pageSize)]
        else canv in
      place_groups pageSize cardSize i1 i2 frame debug (S g) cardGroups h
        (pages ++ [canv])
  end.

(** [layout]: the store after rendering and the pages of the document.
    Every page is shown by the loop, so the closing [canv.save()] adds
    nothing. *)
Definition layout (h : list (gmap string value)) (cards : list nat)
    (pageSize cardSize : float * float) (autoRotate frame debug : bool)
    : result (list (gmap string value) * list (list op)) :=
  '(pageSize, i1, i2) ←
    maximize_cards_on_page cardSize pageSize (Some nppm) autoRotate;
  cardGroups ← regroup cards i1 i2;
  place_groups pageSize cardSize i1 i2 frame debug 0 cardGroups h [].

(** [make_cards_file], from the parsed cover and items on. *)
Definition make_cards_file (cover : list flowable) (items : list item)
    (verbose : bool) (h : list (gmap string value))
    : result (list (gmap string value) * list (list op)) :=
  let cardSize :=
    ((float_of_decimal 91 1 * cm)%float, (float_of_decimal 59 1 * cm)%float) in
  let (pairs, h) := make_cards_platypus cardSize cover items verbose h in
  let cards := faces pairs in
  let pageSize := landscape A4 in
  layout h cards pageSize cardSize true true false.

End Layout.

(** The margins in force, and the usable page area they leave, as the
    fitter computes it. *)
Definition margins_or_zero (margins : option MarginRecord) : MarginRecord :=
  match margins with
  | None =>
      mkMargins (float_of_int 0) (float_of_int 0) (float_of_int 0) (float_of_int 0)
  | Some m => m
  end.

Definition usableWidth (pageSize : float * float) (m : MarginRecord) : float :=
  (fst pageSize - lm m - rm m)%float.

Definition usableHeight (pageSize : float * float) (m : MarginRecord) : float :=
  (snd pageSize - bm m - tm m)%float.

(** ** What the deck is expected to hold

    The card object a pair member is expected to be, the stories of the
    item pairs from number [i + 1] on, and the references of [n]
    consecutive pairs allocated from [base]. *)

Definition card_with (cardSize : float * float) (verbose : bool)
    (story : list flowable) : gmap string value :=
  setattr (QuizCard (kwDict cardSize verbose)) "text" (VStory story).

Definition question_block (it : item) : list flowable :=
  [Paragraph "Question:" fine; q it].

Definition answer_block (n : nat) (it : item) : list flowable :=
  [Paragraph ("Answer " ++ fmt_d n ++ ":<br/><br/>") fine; a it].

Fixpoint item_stories (i : nat) (items : list item)
    : list (list flowable * list flowable) :=
  match items with
  | [] => []
  | it :: items =>
      (question_block it, answer_block (i + 1) it) :: item_stories (S i) items
  end.

Fixpoint card_objs (cardSize : float * float) (verbose : bool)
    (stories : list (list flowable * list flowable)) : list (gmap string value) :=
  match stories with
  | [] => []
  | st :: stories =>
      card_with cardSize verbose st.1 :: card_with cardSize verbose st.2
        :: card_objs cardSize verbose stories
  end.

Fixpoint pair_refs (base n : nat) : list (nat * nat) :=
  match n with
  | O => []
  | S n => (base, S base) :: pair_refs (S (S base)) n
  end.

(** ** What the regrouping is expected to produce

    The sheet groups of [n] full super-chunks of [C] faces, from
    super-chunk [m] on: the fronts, then the backs, of each. *)

Fixpoint full_groups {A} (cards : list A) (C m n : nat) : list (list A) :=
  match n with
  | O => []
  | S n =>
      slice2 cards (m * C) (Some (m * C + C)%nat)
        :: slice2 cards (m * C + 1) (Some (m * C + C + 1)%nat)
        :: full_groups cards C (S m) n
  end.

(** ** Vocabulary for further properties of the grid fitter

    The two pairs of counts the fitter compares, in the order in which it
    computes them, and its four quotients. *)

Definition upright_counts (cardSize pageSize : float * float) (m : MarginRecord)
    : result (Z * Z) :=
  f1 ← py_truediv (usableWidth pageSize m) (fst cardSize);
  f2 ← py_truediv (usableHeight pageSize m) (snd cardSize);
  i1 ← py_int f1;
  i2 ← py_int f2;
  mret (i1, i2).

Definition rotated_counts (cardSize pageSize : float * float) (m : MarginRecord)
    : result (Z * Z) :=
  g1 ← py_truediv (usableWidth pageSize m) (snd cardSize);
  g2 ← py_truediv (usableHeight pageSize m) (fst cardSize);
  j1 ← py_int g1;
  j2 ← py_int g2;
  mret (j1, j2).

Definition quotients (cardSize pageSize : float * float) (m : MarginRecord)
    : list float :=
  [ (usableWidth pageSize m / fst cardSize)%float;
    (usableHeight pageSize m / snd cardSize)%float;
    (usableWidth pageSize m / snd cardSize)%float;
    (usableHeight pageSize m / fst cardSize)%float ].

(** The first exception of a sequence of evaluations, if there is one. *)
Fixpoint first_raise {A} (l : list (result A)) : option exn :=
  match l with
  | [] => None
  | Ok _ :: l => first_raise l
  | Raise e :: _ => Some e
  end.

(** ** Undoing the regrouping

    Fronts and backs of a sheet taken in turn, and the groups of a whole
    document read back sheet by sheet. *)

Fixpoint interleave {A} (fronts backs : list A) : list A :=
  match fronts, backs with
  | x :: fronts, y :: backs => x :: y :: interleave fronts backs
  | fronts, [] => fronts
  | [], backs => backs
  end.

Fixpoint ungroup {A} (cardGroups : list (list A)) : list A :=
  match cardGroups with
  | fronts :: backs :: cardGroups =>
      interleave fronts backs ++ ungroup cardGroups
  | _ => []
  end.

(** ** Vocabulary for the placement

    The cells of a sheet when no integer conversion overflows, and the
    origin [(x0, y0)] of the grid as [layout] then computes it for every
    group. *)

Definition cells (g : nat) (x0 y0 cw ch : float) (i1 i2 : Z)
    : list (float * float) :=
  if (g mod 2 =? 0)%nat
  then
    y ← reverse_seq (range i2); x ← range i1;
    [ ((x0 + float_of_int x * cw)%float, (y0 + float_of_int y * ch)%float) ]
  else
    y ← reverse_seq (range i2); x ← reverse_seq (range i1);
    [ ((x0 + float_of_int x * cw)%float, (y0 + float_of_int y * ch)%float) ].

Definition grid_origin (pageSize cardSize : float * float) (i1 i2 : Z)
    : float * float :=
  let (xc, yc) :=
    ((fst pageSize / float_of_int 2)%float, (snd pageSize / float_of_int 2)%float) in
  let (cw, ch) := cardSize in
  ((xc - float_of_int i1 * cw / float_of_int 2)%float,
   (yc - float_of_int i2 * ch / float_of_int 2)%float).

(** ** Vocabulary for rendering

    A story without images; an attribute that, when the card has it, is a
    float; the cards [layout] can place: a story without images, a left
    margin of their own and float margins; a margin as the code reads it
    (instance first, then class); the card after the margin step of a
    back sheet; and what rendering a card draws. *)

Definition image_free (story : list flowable) : Prop :=
  forall filename : string, Image filename ∉ story.

Definition num_or_unset (o : gmap string value) (name : string) : Prop :=
  match o !! name with
  | Some (VNum _) | None => True
  | Some _ => False
  end.

Definition renderable (o : gmap string value) : Prop :=
  (exists story, o !! "text" = Some (VStory story) /\ image_free story) /\
  num_or_unset o "lm" /\ num_or_unset o "rm" /\
  num_or_unset o "tm" /\ num_or_unset o "bm".

Definition placeable (o : gmap string value) : Prop :=
  renderable o /\ exists l : float, o !! "lm" = Some (VNum l).

Definition margin (o : gmap string value) (name : string) : float :=
  match getattr o name with
  | Ok (VNum x) => x
  | _ => float_of_int 0
  end.

Definition story_of (o : gmap string value) : list flowable :=
  match o !! "text" with
  | Some (VStory story) => story
  | _ => []
  end.

(** A story after [resize_images]. *)
Definition resized (story : list flowable) : list flowable :=
  map (fun el => match el with Str s => Paragraph s bt | _ => el end) story.


Definition mirrored (o : gmap string value) : gmap string value :=
  match o !! "lm" with
  | Some v => delete "lm" (setattr o "rm" v)
  | None => o
  end.

(** The card as [layout] renders it in sheet group [g]. *)
Definition side (g : nat) (o : gmap string value) : gmap string value :=
  if (g mod 2 =? 0)%nat then o else mirrored o.

Definition drawn (wrapOn : float -> float -> list flowable -> float)
    (self : gmap string value) (x0 y0 : float) (size : float * float) : op :=
  drawOn (fst size - margin self "lm" - margin self "rm")%float
    (y0 + snd size - margin self "tm" - y0 - margin self "bm")%float
    (resized (story_of self))
    (x0 + margin self "lm")%float
    (y0 + snd size - margin self "tm"
     - wrapOn (fst size - margin self "lm" - margin self "rm")%float
         (y0 + snd size - margin self "tm" - y0 - margin self "bm")%float
         (resized (story_of self)))%float.

(** ** From the parsed document to the cards

    [markdown_to_platypus], from the result of [extract_markdown] on: the
    cover (title and paragraphs) and the question/answer pairs; and the
    body of the loop of [_main] for one such document. *)


Section Main.

(** [KeepInFrame(...).wrapOn], as in [layout]. *)
Variable wrapOn : float -> float -> list flowable -> float.

(** [reportlab.lib.pygments2xpre.pygments2xpre]. *)
Variable pygments2xpre : string -> string.



End Main.

(** ** [reverse_seq] on any sequence

    The argument of [reverse_seq] by its type: a list, a tuple, a string,
    or another iterable (as the [range] objects [layout] passes), given by
    its elements.  The two definitions above are its list and pair
    cases. *)

Inductive pyseq (A : Type) : Type :=
  | PyList (l : list A)
  | PyTuple (l : list A)
  | PyStr (s : string)
  | PyIter (l : list A).
Arguments PyList {A} l.
Arguments PyTuple {A} l.
Arguments PyStr {A} s.
Arguments PyIter {A} l.

Definition reverse_seq_py {A} (seq : pyseq A) : pyseq A :=
  match seq with
  | PyTuple l => PyTuple (reverse l)
  | PyStr s => PyStr (String.string_of_list_ascii (reverse (String.list_ascii_of_string s)))
  | PyList l | PyIter l => PyList (reverse l)
  end.

(** The number of elements, [len(seq)]. *)
Definition py_len {A} (seq : pyseq A) : nat :=
  match seq with
  | PyList l | PyTuple l | PyIter l => length l
  | PyStr s => String.length s
  end.

(** * Properties *)

(** ** Facts about the arithmetic *)

Example mm_double : mm = S754_finite false 6383054589973932 (-51).
Proof. vm_compute. reflexivity. Qed.

Example fit_A4 :
  maximize_cards_on_page
    ((float_of_decimal 91 1 * cm)%float, (float_of_decimal 59 1 * cm)%float)
    (landscape A4) (Some nppm) true
  = Ok (landscape A4, 3, 3).
Proof. vm_compute. reflexivity. Qed.

(** The integer conversion overflows exactly from [float_max_int] on. *)
Example float_of_int_overflows :
  float_of_int (float_max_int - 1) = S754_finite false 9007199254740991 971 /\
  float_of_int float_max_int = S754_infinity false /\
  float_value (S754_finite false 9007199254740991 971) = inject_Z max_float.
Proof. vm_compute. repeat split. Qed.

Lemma max_float_lt : max_float < float_max_int.
Proof. reflexivity. Qed.

Lemma float_of_int_0 : float_of_int 0 = S754_zero false.
Proof. reflexivity. Qed.

(** Subtracting the integer [0] changes nothing. *)
Lemma float_sub_0 (x : float) : (x - float_of_int 0)%float = x.
Proof. rewrite float_of_int_0. by destruct x as [[]|[]| |s m e]. Qed.


(** What [int] returns is the truncated value, within the range of the
    doubles; it raises nothing but [OverflowError] and [ValueError]. *)
Lemma py_int_ok (x : float) (n : Z) :
  py_int x = Ok n -> n = trunc (float_value x) /\ Z.abs n <= max_float.
Proof.
  assert (H : forall y : Q,
            (if Z.abs (trunc y) <=? max_float
             then Ok (trunc y) else Raise OverflowError) = Ok n ->
            n = trunc y /\ Z.abs n <= max_float).
  { intros y. destruct (Z.leb_spec (Z.abs (trunc y)) max_float); intros E;
      by simplify_eq. }
  unfold py_int. destruct x as [s|s| |s m e]; try discriminate; apply H.
Qed.

Lemma py_int_raise (x : float) (e : exn) :
  py_int x = Raise e -> e = OverflowError \/ e = ValueError.
Proof.
  assert (H : forall y : Q,
            (if Z.abs (trunc y) <=? max_float
             then Ok (trunc y) else Raise OverflowError) = Raise e ->
            e = OverflowError \/ e = ValueError).
  { intros y. destruct (Z.abs (trunc y) <=? max_float); intros E;
      simplify_eq; by left. }
  unfold py_int. destruct x as [s|s| |s m e']; try apply H;
    intros E; simplify_eq; auto.
Qed.

Lemma py_float_ok (n : Z) :
  Z.abs n <= max_float -> py_float n = Ok (float_of_int n).
Proof.
  intros Hn. unfold py_float.
  pose proof max_float_lt.
  destruct (Z.ltb_spec (Z.abs n) float_max_int); [done|lia].
Qed.

Lemma py_float_small (n : Z) :
  Z.abs n < float_max_int -> py_float n = Ok (float_of_int n).
Proof.
  intros Hn. unfold py_float.
  destruct (Z.ltb_spec (Z.abs n) float_max_int); [done|lia].
Qed.

(** ** The grid fitter *)

(** The fitter in terms of the two pairs of counts. *)
Lemma maximize_counts (cardSize pageSize : float * float)
    (margins : option MarginRecord) (autoRotate : bool) :
  maximize_cards_on_page cardSize pageSize margins autoRotate
  = '(i1, i2) ← upright_counts cardSize pageSize (margins_or_zero margins);
    '(j1, j2) ← rotated_counts cardSize pageSize (margins_or_zero margins);
    let '(c, r, p) :=
      if autoRotate && (j1 * j2 >? i1 * i2)
      then (j2, j1, reverse_seq2 pageSize)
      else (i1, i2, pageSize) in
    let '(c, r) :=
      if autoRotate && float_le (fst p) (snd p)
      then if float_lt (snd cardSize) (fst cardSize) then (r, c) else (c, r)
      else (c, r) in
    Ok (p, c, r).
Proof.
  unfold maximize_cards_on_page, upright_counts, rotated_counts,
    usableWidth, usableHeight.
  fold (margins_or_zero margins). set (m := margins_or_zero margins).
  set (uw := (fst pageSize - lm m - rm m)%float).
  set (uh := (snd pageSize - bm m - tm m)%float).
  destruct (py_truediv uw (fst cardSize)) as [f1|e]; [|done].
  cbn [mbind result_bind].
  destruct (py_truediv uh (snd cardSize)) as [f2|e]; [|done].
  cbn [mbind result_bind].
  destruct (py_int f1) as [i1|e]; [|done]. cbn [mbind result_bind].
  destruct (py_int f2) as [i2|e]; [|done]. cbn [mbind result_bind mret result_ret].
  destruct (py_truediv uw (snd cardSize)) as [g1|e]; [|done].
  cbn [mbind result_bind].
  destruct (py_truediv uh (fst cardSize)) as [g2|e]; [|done].
  cbn [mbind result_bind].
  destruct (py_int g1) as [j1|e]; [|done]. cbn [mbind result_bind].
  destruct (py_int g2) as [j2|e]; [|done]. cbn [mbind result_bind mret result_ret].
  repeat case_match; simplify_eq; reflexivity.
Qed.

(** A pair of counts: [int] of two quotients by non-zero divisors. *)
Lemma counts_inv (u v w z : float) (c r : Z) :
  (f1 ← py_truediv u v; f2 ← py_truediv w z;
   i1 ← py_int f1; i2 ← py_int f2; mret (i1, i2)) = Ok (c, r) ->
  float_is_zero v = false /\ float_is_zero z = false /\
  py_int (u / v)%float = Ok c /\ py_int (w / z)%float = Ok r.
Proof.
  unfold py_truediv. intros E.
  destruct (float_is_zero v); cbn [mbind result_bind] in E; [discriminate E|].
  destruct (float_is_zero z); cbn [mbind result_bind] in E; [discriminate E|].
  destruct (py_int (u / v)) as [i1|]; [|discriminate E].
  cbn [mbind result_bind] in E.
  destruct (py_int (w / z)) as [i2|]; [|discriminate E].
  cbn [mbind result_bind] in E. unfold mret, result_ret in E. by simplify_eq.
Qed.

Lemma upright_counts_ok (cardSize pageSize : float * float) (m : MarginRecord)
    (c r : Z) :
  upright_counts cardSize pageSize m = Ok (c, r) ->
  float_is_zero (fst cardSize) = false /\ float_is_zero (snd cardSize) = false /\
  py_int (usableWidth pageSize m / fst cardSize)%float = Ok c /\
  py_int (usableHeight pageSize m / snd cardSize)%float = Ok r.
Proof. apply counts_inv. Qed.

Lemma rotated_counts_ok (cardSize pageSize : float * float) (m : MarginRecord)
    (c r : Z) :
  rotated_counts cardSize pageSize m = Ok (c, r) ->
  float_is_zero (snd cardSize) = false /\ float_is_zero (fst cardSize) = false /\
  py_int (usableWidth pageSize m / snd cardSize)%float = Ok c /\
  py_int (usableHeight pageSize m / fst cardSize)%float = Ok r.
Proof. apply counts_inv. Qed.

Lemma counts_bounds (cardSize pageSize : float * float) (m : MarginRecord)
    (c r : Z) :
  upright_counts cardSize pageSize m = Ok (c, r)
  \/ rotated_counts cardSize pageSize m = Ok (c, r) ->
  Z.abs c <= max_float /\ Z.abs r <= max_float.
Proof.
  intros [E|E]; apply counts_inv in E as (_ & _ & E1 & E2);
    apply py_int_ok in E1 as [_ ?]; apply py_int_ok in E2 as [_ ?]; done.
Qed.

(** When the fitter returns, both pairs of counts were computed, and the
    counts it returns are two of them. *)
Lemma maximize_ok_counts (cardSize pageSize : float * float)
    (margins : option MarginRecord) (autoRotate : bool)
    (p : float * float) (c r : Z) :
  maximize_cards_on_page cardSize pageSize margins autoRotate = Ok (p, c, r) ->
  exists i1 i2 j1 j2,
    upright_counts cardSize pageSize (margins_or_zero margins) = Ok (i1, i2) /\
    rotated_counts cardSize pageSize (margins_or_zero margins) = Ok (j1, j2) /\
    ((c = i1 /\ r = i2) \/ (c = i2 /\ r = i1) \/ (c = j1 /\ r = j2) \/ (c = j2 /\ r = j1)).
Proof.
  rewrite maximize_counts.
  destruct (upright_counts _ _ _) as [[i1 i2]|]; [|done].
  destruct (rotated_counts _ _ _) as [[j1 j2]|]; [|done].
  cbn [mbind result_bind]. intros E. exists i1, i2, j1, j2.
  split; [done|]. split; [done|].
  repeat case_match; simplify_eq; tauto.
Qed.

(** The counts the fitter returns are integers a double can hold. *)
Lemma maximize_bounds (cardSize pageSize : float * float)
    (margins : option MarginRecord) (autoRotate : bool)
    (p : float * float) (c r : Z) :
  maximize_cards_on_page cardSize pageSize margins autoRotate = Ok (p, c, r) ->
  Z.abs c <= max_float /\ Z.abs r <= max_float.
Proof.
  intros E.
  destruct (maximize_ok_counts _ _ _ _ _ _ _ E)
    as (i1 & i2 & j1 & j2 & Eu & Er & Hc).
  destruct (counts_bounds _ _ _ i1 i2 (or_introl Eu)).
  destruct (counts_bounds _ _ _ j1 j2 (or_intror Er)).
  destruct Hc as [[-> ->]|[[-> ->]|[[-> ->]|[-> ->]]]]; done.
Qed.

(** Without rotation the fitter returns the page as given and the upright
    counts. *)
Lemma maximize_no_rotate (cardSize pageSize : float * float)
    (margins : option MarginRecord) (p : float * float) (c r : Z) :
  maximize_cards_on_page cardSize pageSize margins false = Ok (p, c, r) ->
  p = pageSize /\
  upright_counts cardSize pageSize (margins_or_zero margins) = Ok (c, r).
Proof.
  rewrite maximize_counts.
  destruct (upright_counts _ _ _) as [[i1 i2]|]; [|done].
  destruct (rotated_counts _ _ _) as [[j1 j2]|]; [|done].
  cbn [mbind result_bind andb]. intros E. by simplify_eq.
Qed.

(** A zero card side makes the fitter raise, whatever the rotation flag. *)
Lemma maximize_zero_card (cardSize pageSize : float * float)
    (margins : option MarginRecord) (autoRotate : bool) :
  float_is_zero (fst cardSize) = true \/ float_is_zero (snd cardSize) = true ->
  maximize_cards_on_page cardSize pageSize margins autoRotate = Raise ZeroDivisionError.
Proof.
  intros H. unfold maximize_cards_on_page, py_truediv.
  destruct (float_is_zero (fst cardSize)) eqn:E1; [reflexivity|].
  destruct (float_is_zero (snd cardSize)) eqn:E2; [reflexivity|].
  by destruct H.
Qed.

(** ** Claims about the grid fitter *)


(** It also fails by rounding: on an A4 width with margins of 10 mm, five
    cards of 38 mm fill the usable width exactly (the floor of the exact
    quotient of the four doubles is [5]), but the double quotient is
    [4.999999999999999] and the fitter returns four columns. *)
Example grid_yield_rounded_down :
  maximize_cards_on_page
    ((float_of_int 38 * mm)%float, (float_of_int 38 * mm)%float)
    ((float_of_int 210 * mm)%float, (float_of_int 210 * mm)%float)
    (Some (mkMargins (float_of_int 10 * mm) (float_of_int 10 * mm)
             (float_of_int 10 * mm) (float_of_int 10 * mm)))
    false
    = Ok (((float_of_int 210 * mm)%float, (float_of_int 210 * mm)%float), 4, 4) /\
  Qfloor
    ((float_value (float_of_int 210 * mm) - float_value (float_of_int 10 * mm)
      - float_value (float_of_int 10 * mm))
     / float_value (float_of_int 38 * mm)) = 5.
Proof. vm_compute. split; reflexivity. Qed.

(** Rounding can also go the other way: five cards of 42 mm are, as
    doubles, wider than a page of 210 mm, and the fitter returns five
    columns. *)
Example grid_wider_than_page :
  maximize_cards_on_page
    ((float_of_int 42 * mm)%float, (float_of_int 42 * mm)%float)
    ((float_of_int 210 * mm)%float, (float_of_int 210 * mm)%float) None false
    = Ok (((float_of_int 210 * mm)%float, (float_of_int 210 * mm)%float), 5, 5) /\
  (float_value (float_of_int 210 * mm) < 5 * float_value (float_of_int 42 * mm))%Q.
Proof. vm_compute. split; reflexivity. Qed.

(** And the counts depend on the unit: two cards of 98 fit between
    margins of 7 on a width of 210, one when all are taken in mm. *)
Example count_depends_on_unit :
  py_int ((float_of_int 210 - float_of_int 7 - float_of_int 7) / float_of_int 98)%float
    = Ok 2 /\
  py_int ((float_of_int 210 * mm - float_of_int 7 * mm - float_of_int 7 * mm)
          / (float_of_int 98 * mm))%float
    = Ok 1.
Proof. vm_compute. split; reflexivity. Qed.



(** C5: whenever the fitter returns without rotation, it returns with
    rotation allowed as well, and the yield [numCardsX * numCardsY] with
    rotation allowed is at least the yield without. *)
Theorem rotation_never_reduces_yield
    (cardSize pageSize : float * float) (margins : option MarginRecord)
    (p : float * float) (c r : Z) :
  maximize_cards_on_page cardSize pageSize margins false = Ok (p, c, r) ->
  exists p' c' r',
    maximize_cards_on_page cardSize pageSize margins true = Ok (p', c', r') /\
    c * r <= c' * r'.
Proof.
  rewrite !maximize_counts.
  destruct (upright_counts _ _ _) as [[i1 i2]|]; [|done].
  destruct (rotated_counts _ _ _) as [[j1 j2]|]; [|done].
  cbn [mbind result_bind andb]. intros E. simplify_eq.
  destruct (Z.gtb_spec (j1 * j2) (c * r));
    repeat case_match; simplify_eq; eexists _, _, _; (split; [reflexivity|lia]).
Qed.

Lemma rotation_never_reduces_yield_witness :
  exists p' c' r',
    maximize_cards_on_page (float_of_int 59, float_of_int 91)
      (float_of_int 210, float_of_int 297) None true = Ok (p', c', r') /\
    3 * 3 <= c' * r'.
Proof.
  apply (rotation_never_reduces_yield (float_of_int 59, float_of_int 91)
           (float_of_int 210, float_of_int 297) None
           (float_of_int 210, float_of_int 297) 3 3).
  vm_compute. reflexivity.
Defined.

(** C10: called without margins the fitter behaves as with four zero
    margins, and (without rotation, when it returns) its counts are [int]
    of the full page width and height divided by the card width and
    height. *)
Theorem maximize_without_margins
    (cardSize pageSize : float * float) (autoRotate : bool)
    (p : float * float) (c r : Z) :
  maximize_cards_on_page cardSize pageSize None false = Ok (p, c, r) ->
  maximize_cards_on_page cardSize pageSize None autoRotate
    = maximize_cards_on_page cardSize pageSize
        (Some (mkMargins (float_of_int 0) (float_of_int 0)
                 (float_of_int 0) (float_of_int 0))) autoRotate /\
  p = pageSize /\
  py_int (fst pageSize / fst cardSize)%float = Ok c /\
  py_int (snd pageSize / snd cardSize)%float = Ok r.
Proof.
  intros E. split; [reflexivity|].
  apply maximize_no_rotate in E as [-> E]. split; [done|].
  apply upright_counts_ok in E as (_ & _ & Ec & Er).
  unfold usableWidth, usableHeight, margins_or_zero in Ec, Er.
  cbn [lm rm tm bm] in Ec, Er. by rewrite !float_sub_0 in Ec, Er.
Qed.

Lemma maximize_without_margins_witness :
  maximize_cards_on_page (float_of_int 91, float_of_int 59)
    (float_of_int 297, float_of_int 210) None true
    = maximize_cards_on_page (float_of_int 91, float_of_int 59)
        (float_of_int 297, float_of_int 210)
        (Some (mkMargins (float_of_int 0) (float_of_int 0)
                 (float_of_int 0) (float_of_int 0))) true /\
  (float_of_int 297, float_of_int 210) = (float_of_int 297, float_of_int 210) /\
  py_int (fst (float_of_int 297, float_of_int 210)
          / fst (float_of_int 91, float_of_int 59))%float = Ok 3 /\
  py_int (snd (float_of_int 297, float_of_int 210)
          / snd (float_of_int 91, float_of_int 59))%float = Ok 3.
Proof.
  apply (maximize_without_margins (float_of_int 91, float_of_int 59)
           (float_of_int 297, float_of_int 210) true
           (float_of_int 297, float_of_int 210) 3 3).
  vm_compute. reflexivity.
Defined.

(** ** The deck builder *)

Lemma getattr_setattr_eq (o : gmap string value) (name : string) (v : value) :
  getattr (setattr o name v) name = Ok v.
Proof. unfold getattr, setattr. by rewrite lookup_insert_eq. Qed.

Lemma getattr_setattr_ne (o : gmap string value) (name name' : string) (v : value) :
  name <> name' -> getattr (setattr o name v) name' = getattr o name'.
Proof. intros Hne. unfold getattr, setattr. by rewrite lookup_insert_ne. Qed.

Lemma set_text_middle (h0 t : list (gmap string value)) (o : gmap string value)
    (story : list flowable) :
  set_text (h0 ++ o :: t) (length h0) story
  = h0 ++ setattr o "text" (VStory story) :: t.
Proof.
  unfold set_text, deref.
  rewrite list_lookup_middle by reflexivity. simpl.
  rewrite insert_app_r_alt by lia.
  by rewrite Nat.sub_diag.
Qed.

Lemma set_text_pair (h0 : list (gmap string value)) (o1 o2 : gmap string value)
    (s1 s2 : list flowable) :
  set_text (set_text (h0 ++ [o1; o2]) (length h0) s1) (S (length h0)) s2
  = h0 ++ [setattr o1 "text" (VStory s1); setattr o2 "text" (VStory s2)].
Proof.
  rewrite set_text_middle.
  change (h0 ++ ?x :: ?t) with (h0 ++ [x] ++ t).
  rewrite app_assoc.
  replace (S (length h0)) with (length (h0 ++ [setattr o1 "text" (VStory s1)]))
    by (rewrite length_app; simpl; lia).
  rewrite set_text_middle. by rewrite <- app_assoc.
Qed.

(** The loop in closed form: the references are handed out in pairs, in
    order, and the store grows by the cards of the stories. *)
Lemma make_cards_loop_closed (cardSize : float * float) (verbose : bool) (items : list item) :
  forall (i : nat) (h0 : list (gmap string value)) (questions answers : list flowable),
    make_cards_loop cardSize verbose i items (length h0) (S (length h0))
      questions answers
      (h0 ++ [QuizCard (kwDict cardSize verbose); QuizCard (kwDict cardSize verbose)])
    = (pair_refs (length h0) (S (length items)),
       h0 ++ card_objs cardSize verbose ((questions, answers) :: item_stories i items)).
Proof.
  induction items as [|it items IH]; intros i h0 questions answers.
  - simpl. by rewrite set_text_pair.
  - cbn [make_cards_loop]. rewrite set_text_pair.
    set (h1 := h0 ++ [_; _]).
    unfold new.
    assert (Hlen : length h1 = S (S (length h0))).
    { unfold h1. rewrite length_app. simpl. lia. }
    rewrite length_app. simpl length. rewrite Nat.add_1_r.
    rewrite <- app_assoc. simpl app.
    rewrite Hlen. rewrite <- Hlen at 1 2.
    rewrite IH. rewrite Hlen.
    cbn [pair_refs item_stories card_objs fst snd].
    f_equal. unfold h1. rewrite <- app_assoc. reflexivity.
Qed.

Lemma make_cards_platypus_closed (cardSize : float * float) (cover : list flowable)
    (items : list item) (verbose : bool) (h : list (gmap string value)) :
  make_cards_platypus cardSize cover items verbose h
  = (pair_refs (length h) (S (length items)),
     h ++ card_objs cardSize verbose ((cover, []) :: item_stories 0 items)).
Proof.
  unfold make_cards_platypus, new.
  rewrite length_app. simpl length. rewrite Nat.add_1_r.
  rewrite <- app_assoc. simpl app.
  apply make_cards_loop_closed.
Qed.

Lemma length_pair_refs (base n : nat) : length (pair_refs base n) = n.
Proof. revert base. induction n; intros; simpl; auto. Qed.

Lemma lookup_pair_refs (n : nat) :
  forall (base i : nat), (i < n)%nat ->
    pair_refs base n !! i = Some ((base + 2 * i)%nat, S (base + 2 * i)).
Proof.
  induction n as [|n IH]; intros base i Hi; [lia|].
  destruct i as [|i]; simpl.
  - by rewrite Nat.add_0_r.
  - rewrite IH by lia. f_equal. f_equal; lia.
Qed.

Lemma lookup_card_objs (cardSize : float * float) (verbose : bool)
    (stories : list (list flowable * list flowable)) :
  forall (i : nat) (st : list flowable * list flowable),
    stories !! i = Some st ->
    card_objs cardSize verbose stories !! (2 * i)%nat
      = Some (card_with cardSize verbose st.1) /\
    card_objs cardSize verbose stories !! S (2 * i)
      = Some (card_with cardSize verbose st.2).
Proof.
  induction stories as [|s stories IH]; intros i st Hst; [done|].
  destruct i as [|i]; simpl in *.
  - by simplify_eq.
  - replace (i + S (i + 0))%nat with (S (2 * i)) by lia. simpl.
    by apply IH.
Qed.

Lemma lookup_item_stories (items : list item) :
  forall (i n : nat) (it : item),
    items !! n = Some it ->
    item_stories i items !! n
      = Some (question_block it, answer_block (i + n + 1) it).
Proof.
  induction items as [|it0 items IH]; intros i n it Hn; [done|].
  destruct n as [|n]; simpl in *.
  - simplify_eq. by rewrite Nat.add_0_r.
  - rewrite (IH (S i) n it Hn). f_equal. f_equal. f_equal. lia.
Qed.

Lemma length_faces {A} (pairs : list (A * A)) :
  length (faces pairs) = (2 * length pairs)%nat.
Proof. induction pairs as [|p pairs IH]; simpl; [done|]. rewrite IH. lia. Qed.

Lemma deref_app_r (h objs : list (gmap string value)) (k : nat) :
  deref (h ++ objs) (length h + k) = default ∅ (objs !! k).
Proof.
  unfold deref. rewrite lookup_app_r by lia.
  by replace (length h + k - length h)%nat with k by lia.
Qed.

Lemma text_of_card_with (cardSize : float * float) (verbose : bool) (story : list flowable) :
  getattr (card_with cardSize verbose story) "text" = Ok (VStory story).
Proof. apply getattr_setattr_eq. Qed.

(** The faces of pair [i], read back from the store the builder leaves. *)
Lemma deck_pair_texts (cardSize : float * float) (cover : list flowable)
    (items : list item) (verbose : bool) (h : list (gmap string value))
    (i : nat) (st : list flowable * list flowable) :
  ((cover, []) :: item_stories 0 items) !! i = Some st ->
  exists front back,
    (make_cards_platypus cardSize cover items verbose h).1 !! i = Some (front, back) /\
    getattr (deref (make_cards_platypus cardSize cover items verbose h).2 front) "text"
      = Ok (VStory st.1) /\
    getattr (deref (make_cards_platypus cardSize cover items verbose h).2 back) "text"
      = Ok (VStory st.2).
Proof.
  intros Hst. rewrite make_cards_platypus_closed. cbn [fst snd].
  assert (Hi : (i < S (length items))%nat).
  { apply lookup_lt_Some in Hst. simpl in Hst.
    assert (Hl : forall k l, length (item_stories k l) = length l).
    { intros k l. revert k. induction l; intros; simpl; auto. }
    rewrite Hl in Hst. lia. }
  eexists _, _. split; [apply lookup_pair_refs; exact Hi|].
  destruct (lookup_card_objs cardSize verbose _ i st Hst) as [Hf Hb].
  split.
  - rewrite deref_app_r, Hf. apply text_of_card_with.
  - replace (S (length h + 2 * i)) with (length h + S (2 * i))%nat by lia.
    rewrite deref_app_r, Hb. apply text_of_card_with.
Qed.

(** C3: the builder yields [N + 1] pairs in document order; pair 0 is the
    cover with an empty back, pair [i] (for [1 <= i <= N]) is the labelled
    question of item [i - 1] with the answer labelled [i]; five items give
    six pairs, twelve faces. *)
Theorem deck_builder_pairs (cardSize : float * float) (cover : list flowable)
    (items : list item) (verbose : bool) (h : list (gmap string value)) :
  length (make_cards_platypus cardSize cover items verbose h).1
    = S (length items) /\
  (exists front back,
     (make_cards_platypus cardSize cover items verbose h).1 !! 0%nat
       = Some (front, back) /\
     getattr (deref (make_cards_platypus cardSize cover items verbose h).2 front) "text"
       = Ok (VStory cover) /\
     getattr (deref (make_cards_platypus cardSize cover items verbose h).2 back) "text"
       = Ok (VStory [])) /\
  (forall (i : nat) (it : item),
     (1 <= i)%nat -> items !! (i - 1)%nat = Some it ->
     exists front back,
       (make_cards_platypus cardSize cover items verbose h).1 !! i
         = Some (front, back) /\
       getattr (deref (make_cards_platypus cardSize cover items verbose h).2 front) "text"
         = Ok (VStory [Paragraph "Question:" fine; q it]) /\
       getattr (deref (make_cards_platypus cardSize cover items verbose h).2 back) "text"
         = Ok (VStory
                 [Paragraph ("Answer " ++ fmt_d i ++ ":<br/><br/>") fine; a it])) /\
  (length items = 5%nat ->
     length (make_cards_platypus cardSize cover items verbose h).1 = 6%nat /\
     length (faces (make_cards_platypus cardSize cover items verbose h).1) = 12%nat).
Proof.
  assert (Hlen : length (make_cards_platypus cardSize cover items verbose h).1
                 = S (length items)).
  { rewrite make_cards_platypus_closed. apply length_pair_refs. }
  split; [exact Hlen|]. split; [|split].
  - apply (deck_pair_texts cardSize cover items verbose h 0 (cover, [])).
    reflexivity.
  - intros i it Hi Hit.
    apply (deck_pair_texts cardSize cover items verbose h i
             (question_block it, answer_block i it)).
    destruct i as [|i]; [lia|]. simpl in *.
    rewrite Nat.sub_0_r in Hit.
    rewrite (lookup_item_stories items 0 i it Hit).
    do 3 f_equal. lia.
  - intros H5. rewrite length_faces, Hlen, H5. split; reflexivity.
Qed.

Lemma deck_builder_pairs_witness :
  length
    (make_cards_platypus (float_of_int 91, float_of_int 59) [Paragraph "100 exercises" h1]
       (map (fun n => mkItem (Paragraph (fmt_d n) bt) (XPreformatted (fmt_d n) code))
          (seq 1 5))
       false []).1 = 6%nat /\
  length
    (faces
       (make_cards_platypus (float_of_int 91, float_of_int 59) [Paragraph "100 exercises" h1]
          (map (fun n => mkItem (Paragraph (fmt_d n) bt) (XPreformatted (fmt_d n) code))
             (seq 1 5))
          false []).1) = 12%nat.
Proof.
  apply (deck_builder_pairs (float_of_int 91, float_of_int 59) [Paragraph "100 exercises" h1]
           (map (fun n => mkItem (Paragraph (fmt_d n) bt) (XPreformatted (fmt_d n) code))
              (seq 1 5))
           false []).
  reflexivity.
Defined.

(** ** The cells of a sheet *)

Lemma lookup_bind_rows {A B} (f : A -> list B) (n : nat) (l : list A) :
  (forall x, length (f x) = n) ->
  forall (r c : nat), (c < n)%nat ->
    (l ≫= f) !! (r * n + c)%nat = l !! r ≫= fun x => f x !! c.
Proof.
  intros Hf. induction l as [|x l IH]; intros r c Hc.
  - by destruct r.
  - destruct r as [|r]; simpl.
    + rewrite lookup_app_l by (rewrite Hf; lia). done.
    + rewrite lookup_app_r by (rewrite Hf; lia).
      rewrite Hf. replace (n + r * n + c - n)%nat with (r * n + c)%nat by lia.
      by apply IH.
Qed.

Lemma bind_singleton_fmap {A B} (g : A -> B) (l : list A) :
  (l ≫= fun x => [g x]) = g <$> l.
Proof. induction l as [|x l IH]; csimpl; [done|]. by f_equal. Qed.

Lemma length_range (n : nat) : length (range (Z.of_nat n)) = n.
Proof. unfold range. rewrite length_map, length_seq. lia. Qed.

Lemma lookup_range (n i : nat) :
  (i < n)%nat -> range (Z.of_nat n) !! i = Some (Z.of_nat i).
Proof.
  intros Hi. unfold range.
  change (map Z.of_nat ?l) with (Z.of_nat <$> l).
  rewrite list_lookup_fmap, Nat2Z.id, lookup_seq_lt by lia. done.
Qed.

Lemma lookup_reverse_range (n i : nat) :
  (i < n)%nat ->
  reverse_seq (range (Z.of_nat n)) !! i = Some (Z.of_nat (n - 1 - i)).
Proof.
  intros Hi. unfold reverse_seq.
  rewrite reverse_lookup by (rewrite length_range; lia).
  rewrite length_range, lookup_range by lia.
  do 2 f_equal. lia.
Qed.

(** Cell number [r * cols + c] of a front sheet is column [c] of the
    [r]-th row from the top. *)
Lemma cells_front (g : nat) (x0 y0 cw ch : float) (cols rows r c : nat) :
  (g mod 2 = 0)%nat -> (r < rows)%nat -> (c < cols)%nat ->
  cells g x0 y0 cw ch (Z.of_nat cols) (Z.of_nat rows) !! (r * cols + c)%nat
  = Some ((x0 + float_of_int (Z.of_nat c) * cw)%float,
          (y0 + float_of_int (Z.of_nat (rows - 1 - r)) * ch)%float).
Proof.
  intros Hg Hr Hc. unfold cells. rewrite Hg. simpl (0 =? 0)%nat. cbv iota.
  rewrite (lookup_bind_rows _ cols)
    by (intros; rewrite bind_singleton_fmap, length_fmap; apply length_range) || lia.
  rewrite lookup_reverse_range by lia. simpl.
  rewrite bind_singleton_fmap, list_lookup_fmap, lookup_range by lia. done.
Qed.

(** Cell number [r * cols + c] of a back sheet is column [cols - 1 - c]
    of the [r]-th row from the top. *)
Lemma cells_back (g : nat) (x0 y0 cw ch : float) (cols rows r c : nat) :
  (g mod 2 = 1)%nat -> (r < rows)%nat -> (c < cols)%nat ->
  cells g x0 y0 cw ch (Z.of_nat cols) (Z.of_nat rows) !! (r * cols + c)%nat
  = Some ((x0 + float_of_int (Z.of_nat (cols - 1 - c)) * cw)%float,
          (y0 + float_of_int (Z.of_nat (rows - 1 - r)) * ch)%float).
Proof.
  intros Hg Hr Hc. unfold cells. rewrite Hg. simpl (1 =? 0)%nat. cbv iota.
  rewrite (lookup_bind_rows _ cols)
    by (intros; rewrite bind_singleton_fmap, length_fmap;
        unfold reverse_seq; rewrite length_reverse; apply length_range) || lia.
  rewrite lookup_reverse_range by lia. simpl.
  rewrite bind_singleton_fmap, list_lookup_fmap, lookup_reverse_range by lia. done.
Qed.

Lemma length_bind_rows {A B} (f : A -> list B) (n : nat) (l : list A) :
  (forall x, length (f x) = n) -> length (l ≫= f) = (length l * n)%nat.
Proof.
  intros Hf. induction l as [|x l IH]; [done|].
  csimpl. rewrite length_app, Hf, IH. done.
Qed.

Lemma range_to_nat (n : Z) : range n = range (Z.of_nat (Z.to_nat n)).
Proof. unfold range. by rewrite Nat2Z.id. Qed.

Lemma cells_to_nat (g : nat) (x0 y0 cw ch : float) (i1 i2 : Z) :
  cells g x0 y0 cw ch i1 i2
  = cells g x0 y0 cw ch (Z.of_nat (Z.to_nat i1)) (Z.of_nat (Z.to_nat i2)).
Proof. unfold cells. by rewrite <- !range_to_nat. Qed.

(** A sheet has [rows * cols] cells, for fronts and backs alike, and none
    when a count is zero or negative. *)
Lemma length_cells (g : nat) (x0 y0 cw ch : float) (i1 i2 : Z) :
  length (cells g x0 y0 cw ch i1 i2) = (Z.to_nat i2 * Z.to_nat i1)%nat.
Proof.
  rewrite cells_to_nat. unfold cells.
  destruct (g mod 2 =? 0)%nat.
  - rewrite (length_bind_rows _ (Z.to_nat i1)).
    + unfold reverse_seq. by rewrite length_reverse, length_range.
    + intros y. rewrite bind_singleton_fmap, length_fmap. apply length_range.
  - rewrite (length_bind_rows _ (Z.to_nat i1)).
    + unfold reverse_seq. by rewrite length_reverse, length_range.
    + intros y. rewrite bind_singleton_fmap, length_fmap.
      unfold reverse_seq. rewrite length_reverse. apply length_range.
Qed.

Lemma range_nonpos (n : Z) : n <= 0 -> range n = [].
Proof. intros Hn. unfold range. by replace (Z.to_nat n) with 0%nat by lia. Qed.

Lemma cells_no_cell (g : nat) (x0 y0 cw ch : float) (i1 i2 : Z) :
  i1 <= 0 \/ i2 <= 0 -> cells g x0 y0 cw ch i1 i2 = [].
Proof.
  intros [H1|H2]; unfold cells.
  - rewrite (range_nonpos i1 H1). change (reverse_seq (@nil Z)) with (@nil Z).
    destruct (g mod 2 =? 0)%nat;
      induction (reverse_seq (range i2)) as [|y l IH]; done.
  - rewrite (range_nonpos i2 H2). by destruct (g mod 2 =? 0)%nat.
Qed.

(** ** The list of cells as the code builds it *)

Lemma comprehension_ok {A B} (f : A -> result B) (g : A -> B) (l : list A) :
  (forall x, x ∈ l -> f x = Ok (g x)) -> comprehension f l = Ok (map g l).
Proof.
  induction l as [|x l IH]; intros Hf; [done|].
  cbn [comprehension map]. rewrite (Hf x) by (by left).
  cbn [mbind result_bind]. rewrite IH by (intros y Hy; apply Hf; by right).
  done.
Qed.

Lemma elem_of_range (n x : Z) : x ∈ range n -> 0 <= x < n.
Proof.
  unfold range. change (map Z.of_nat ?l) with (Z.of_nat <$> l).
  intros (k & -> & Hk)%list_elem_of_fmap. apply elem_of_seq in Hk. lia.
Qed.

Lemma cell_ok (x0 y0 cw ch : float) (x y : Z) :
  Z.abs x < float_max_int -> Z.abs y < float_max_int ->
  cell x0 y0 cw ch x y
  = Ok ((x0 + float_of_int x * cw)%float, (y0 + float_of_int y * ch)%float).
Proof.
  intros Hx Hy. unfold cell, py_mul_int.
  by rewrite !py_float_small by assumption.
Qed.

Lemma concat_rows {A B C} (f : A -> B -> C) (xs : list A) (ys : list B) :
  concat (map (fun y => map (fun x => f x y) xs) ys)
  = ys ≫= fun y => xs ≫= fun x => [f x y].
Proof.
  induction ys as [|y ys IH]; [done|].
  csimpl. rewrite IH, bind_singleton_fmap. done.
Qed.

(** When the two counts are integers that convert to a double, the list
    [coords] is built without an exception. *)
Lemma coords_cells (g : nat) (x0 y0 cw ch : float) (i1 i2 : Z) :
  i1 <= float_max_int -> i2 <= float_max_int ->
  coords g x0 y0 cw ch i1 i2 = Ok (cells g x0 y0 cw ch i1 i2).
Proof.
  intros H1 H2. unfold coords, cells.
  assert (Hrow : forall (xs : list Z) (y : Z),
            (forall x, x ∈ xs -> 0 <= x < i1) -> 0 <= y < i2 ->
            comprehension (fun x => cell x0 y0 cw ch x y) xs
            = Ok (map (fun x => ((x0 + float_of_int x * cw)%float,
                                 (y0 + float_of_int y * ch)%float)) xs)).
  { intros xs y Hxs Hy. apply comprehension_ok. intros x Hx.
    apply Hxs in Hx. apply cell_ok; lia. }
  assert (Hrows : forall xs : list Z,
            (forall x, x ∈ xs -> 0 <= x < i1) ->
            comprehension
              (fun y => comprehension (fun x => cell x0 y0 cw ch x y) xs)
              (reverse_seq (range i2))
            = Ok (map (fun y => map (fun x => ((x0 + float_of_int x * cw)%float,
                                               (y0 + float_of_int y * ch)%float)) xs)
                    (reverse_seq (range i2)))).
  { intros xs Hxs. apply comprehension_ok. intros y Hy.
    apply Hrow; [exact Hxs|].
    apply elem_of_range. by apply elem_of_reverse. }
  destruct (g mod 2 =? 0)%nat.
  - rewrite Hrows by apply elem_of_range.
    cbn [mbind result_bind]. unfold mret, result_ret. f_equal.
    apply concat_rows.
  - rewrite Hrows
      by (intros x Hx; apply elem_of_range; by apply elem_of_reverse).
    cbn [mbind result_bind]. unfold mret, result_ret. f_equal.
    apply (concat_rows (fun x y => ((x0 + float_of_int x * cw)%float,
                                   (y0 + float_of_int y * ch)%float))).
Qed.

(** C2: on a back sheet the card in column [c] of a row gets the cell a
    front sheet gives to column [cols - 1 - c] of the same row; both
    parities walk the rows from the top one down, fronts left to right,
    backs right to left.  (The counts are integers that convert to a
    double, as those the fitter returns are.) *)
Theorem back_cells_mirror_front
    (gf gb : nat) (x0 y0 cw ch : float) (cols rows r c : nat) :
  (gf mod 2 = 0)%nat -> (gb mod 2 = 1)%nat -> (r < rows)%nat -> (c < cols)%nat ->
  Z.of_nat cols <= float_max_int -> Z.of_nat rows <= float_max_int ->
  exists front back : list (float * float),
    coords gf x0 y0 cw ch (Z.of_nat cols) (Z.of_nat rows) = Ok front /\
    coords gb x0 y0 cw ch (Z.of_nat cols) (Z.of_nat rows) = Ok back /\
    front !! (r * cols + c)%nat
      = Some ((x0 + float_of_int (Z.of_nat c) * cw)%float,
              (y0 + float_of_int (Z.of_nat (rows - 1 - r)) * ch)%float) /\
    back !! (r * cols + c)%nat
      = Some ((x0 + float_of_int (Z.of_nat (cols - 1 - c)) * cw)%float,
              (y0 + float_of_int (Z.of_nat (rows - 1 - r)) * ch)%float) /\
    back !! (r * cols + c)%nat = front !! (r * cols + (cols - 1 - c))%nat.
Proof.
  intros Hf Hb Hr Hc Hcols Hrows.
  eexists _, _.
  split; [by apply coords_cells|]. split; [by apply coords_cells|].
  split; [by apply cells_front|]. split; [by apply cells_back|].
  rewrite cells_back, cells_front by (assumption || lia). done.
Qed.

Lemma back_cells_mirror_front_witness :
  exists front back : list (float * float),
    coords 0 (float_of_int 0) (float_of_int 0) (float_of_int 91) (float_of_int 59)
      (Z.of_nat 3) (Z.of_nat 3) = Ok front /\
    coords 1 (float_of_int 0) (float_of_int 0) (float_of_int 91) (float_of_int 59)
      (Z.of_nat 3) (Z.of_nat 3) = Ok back /\
    front !! (1 * 3 + 0)%nat
      = Some ((float_of_int 0 + float_of_int (Z.of_nat 0) * float_of_int 91)%float,
              (float_of_int 0
               + float_of_int (Z.of_nat (3 - 1 - 1)) * float_of_int 59)%float) /\
    back !! (1 * 3 + 0)%nat
      = Some ((float_of_int 0
               + float_of_int (Z.of_nat (3 - 1 - 0)) * float_of_int 91)%float,
              (float_of_int 0
               + float_of_int (Z.of_nat (3 - 1 - 1)) * float_of_int 59)%float) /\
    back !! (1 * 3 + 0)%nat = front !! (1 * 3 + (3 - 1 - 0))%nat.
Proof.
  apply (back_cells_mirror_front 0 1 (float_of_int 0) (float_of_int 0)
           (float_of_int 91) (float_of_int 59) 3 3 1 0);
    vm_compute; (lia || discriminate).
Defined.


(** ** Regrouping for double-sided printing *)

Section Regroup.
Local Open Scope nat_scope.

Context {A : Type}.
Implicit Types (l cards rest : list A) (x : A).

Lemma lookup_stride2 (p : nat) : forall l, stride2 l !! p = l !! (2 * p).
Proof.
  induction p as [|p IH]; intros l.
  - by destruct l.
  - destruct l as [|x [|y l]]; [done|done|].
    replace (2 * S p) with (S (S (2 * p))) by lia. simpl.
    rewrite IH. do 2 f_equal.
Qed.

Lemma lookup_slice2_stop l (s e p : nat) :
  slice2 l s (Some e) !! p = if decide (s + 2 * p < e) then l !! (s + 2 * p) else None.
Proof.
  unfold slice2. by rewrite lookup_stride2, lookup_drop, lookup_take.
Qed.

Lemma lookup_slice2_open l (s p : nat) :
  slice2 l s None !! p = l !! (s + 2 * p).
Proof. unfold slice2. by rewrite lookup_stride2, lookup_drop. Qed.

Lemma same_domain_same_length {B} (l1 l2 : list B) :
  (forall p, is_Some (l1 !! p) <-> is_Some (l2 !! p)) -> length l1 = length l2.
Proof.
  intros H.
  destruct (Nat.lt_trichotomy (length l1) (length l2)) as [Hlt|[Heq|Hlt]]; [|done|].
  - apply lookup_lt_is_Some in Hlt. apply H, lookup_lt_is_Some in Hlt. lia.
  - apply lookup_lt_is_Some in Hlt. apply H, lookup_lt_is_Some in Hlt. lia.
Qed.

Lemma length_full_groups cards (C n : nat) :
  forall m, length (full_groups cards C m n) = 2 * n.
Proof. induction n as [|n IH]; intros m; simpl; [done|]. rewrite IH. lia. Qed.

Lemma lookup_full_groups cards (C n : nat) :
  forall (m k : nat), k < n ->
    full_groups cards C m n !! (2 * k)
      = Some (slice2 cards ((m + k) * C) (Some ((m + k) * C + C))) /\
    full_groups cards C m n !! (2 * k + 1)
      = Some (slice2 cards ((m + k) * C + 1) (Some ((m + k) * C + C + 1))).
Proof.
  induction n as [|n IH]; intros m k Hk; [lia|].
  destruct k as [|k].
  - simpl. by rewrite Nat.add_0_r.
  - replace (2 * S k) with (S (S (2 * k))) by lia.
    replace (m + S k) with (S m + k) by lia.
    cbn [full_groups lookup list_lookup Nat.add].
    apply (IH (S m) k). lia.
Qed.

(** The number of the last super-chunk of [n] faces. *)
Lemma last_chunk_unique (C m n : nat) :
  m * C < n -> n <= m * C + C -> (n - 1) / C = m.
Proof.
  intros H1 H2. symmetry.
  apply (Nat.div_unique (n - 1) C m (n - 1 - m * C)); lia.
Qed.

Lemma py_mod_nat (j C : nat) (c : Z) :
  0 < C -> c = Z.of_nat C ->
  py_mod (Z.of_nat j) c = Ok (Z.of_nat (j mod C)).
Proof.
  intros HC ->. unfold py_mod.
  destruct (Z.eqb_spec (Z.of_nat C) 0); [lia|].
  by rewrite Nat2Z.inj_mod.
Qed.

(** The enumeration loop in closed form, for a positive capacity: it
    never raises, flushes one pair of groups per full super-chunk, and
    leaves [k] at the start of the last super-chunk. *)
Lemma regroup_loop_closed cards (i1 i2 : Z) (C : nat) :
  0 < C -> (2 * i1 * i2)%Z = Z.of_nat C ->
  forall rest (j m : nat) (acc : list (list A)),
    (j = 0 /\ m = 0) \/ (m * C < j /\ j <= m * C + C) ->
    regroup_loop cards i1 i2 rest j (m * C) acc
    = Ok (((j + length rest - 1) / C) * C,
          acc ++ full_groups cards C m ((j + length rest - 1) / C - m)).
Proof.
  intros HC Hcap. induction rest as [|card rest IH]; intros j m acc Hj.
  - simpl. rewrite Nat.add_0_r.
    assert ((j - 1) / C = m) as ->.
    { destruct Hj as [[-> ->]|[H1 H2]].
      - by apply Nat.div_small.
      - by apply last_chunk_unique. }
    rewrite Nat.sub_diag. simpl. by rewrite app_nil_r.
  - cbn [regroup_loop length].
    replace (j + S (length rest) - 1) with (S j + length rest - 1) by lia.
    destruct (Nat.ltb_spec 0 j) as [Hpos|Hzero].
    + destruct Hj as [[-> ->]|[H1 H2]]; [lia|].
      rewrite (py_mod_nat j C) by done. cbn [mbind result_bind mret result_ret].
      destruct (Z.eqb_spec (Z.of_nat (j mod C)) 0) as [Hm|Hm].
      * assert (Hjm : j = S m * C).
        { assert (j mod C = 0) as Hm' by lia.
          apply Nat.Div0.div_exact in Hm'.
          set (d := j / C) in *.
          assert (d = S m) as Hd by nia.
          rewrite Hm', Hd. lia. }
        pose proof
          (IH (S j) (S m)
             ((acc ++ [slice2 cards (m * C) (Some j)])
                ++ [slice2 cards (m * C + 1) (Some (j + 1))])) as IH'.
        rewrite <- Hjm in IH'. rewrite IH' by lia. clear IH'.
        f_equal. f_equal.
        assert (S m <= (S j + length rest - 1) / C).
        { apply Nat.div_le_lower_bound; lia. }
        replace ((S j + length rest - 1) / C - m)
          with (S ((S j + length rest - 1) / C - S m)) by lia.
        cbn [full_groups]. rewrite <- !app_assoc. simpl.
        do 3 f_equal; rewrite ?Hjm; do 2 f_equal; lia.
      * assert (j mod C <> 0) as Hm' by lia.
        assert (j <> m * C + C).
        { intros ->. apply Hm'.
          replace (m * C + C) with (S m * C) by lia. apply Nat.Div0.mod_mul. }
        apply IH. lia.
    + assert (j = 0) as -> by lia.
      destruct Hj as [[_ ->]|[H1 H2]]; [|lia].
      cbn [mbind result_bind mret result_ret].
      apply (IH 1 0 acc). lia.
Qed.

Lemma regroup_closed cards (i1 i2 : Z) (C : nat) :
  0 < C -> (2 * i1 * i2)%Z = Z.of_nat C ->
  regroup cards i1 i2
  = Ok (full_groups cards C 0 ((length cards - 1) / C)
          ++ [slice2 cards ((length cards - 1) / C * C) None;
              slice2 cards ((length cards - 1) / C * C + 1) None]).
Proof.
  intros HC Hcap. unfold regroup.
  pose proof (regroup_loop_closed cards i1 i2 C HC Hcap cards 0 0 []) as H.
  cbn [Nat.mul Nat.add app] in H. rewrite H by lia.
  cbn [mbind result_bind mret result_ret].
  rewrite Nat.sub_0_r. by rewrite <- app_assoc.
Qed.

(** A front slice starting at an even position and the back slice
    starting one later pair up position by position. *)
Lemma pair_of_slices cards (t : nat) (e : option nat) :
  Nat.Even (length cards) ->
  (forall e', e = Some e' -> Nat.Even e') ->
  length (slice2 cards (2 * t) e) = length (slice2 cards (2 * t + 1) (S <$> e)) /\
  forall (j : nat) (front back : A),
    slice2 cards (2 * t) e !! j = Some front ->
    slice2 cards (2 * t + 1) (S <$> e) !! j = Some back ->
    cards !! (2 * (t + j)) = Some front /\ cards !! (2 * (t + j) + 1) = Some back.
Proof.
  intros [n Hn] He. split.
  - apply same_domain_same_length. intros p.
    destruct e as [e'|]; simpl.
    + destruct (He e' eq_refl) as [n' ->].
      rewrite !lookup_slice2_stop.
      repeat case_decide; try lia; rewrite ?lookup_lt_is_Some; [lia|].
      split; intros [? ?]; done.
    + rewrite !lookup_slice2_open, !lookup_lt_is_Some. lia.
  - intros j front back Hf Hb.
    replace (2 * (t + j)) with (2 * t + 2 * j) by lia.
    replace (2 * t + 2 * j + 1) with (2 * t + 1 + 2 * j) by lia.
    destruct e as [e'|]; simpl in *.
    + rewrite lookup_slice2_stop in Hf. rewrite lookup_slice2_stop in Hb.
      repeat case_decide; done.
    + rewrite lookup_slice2_open in Hf. rewrite lookup_slice2_open in Hb. done.
Qed.

(** For a positive capacity and an even number of faces, the sheet
    groups come in consecutive pairs of equal length, and positions [j] of
    groups [2k] and [2k + 1] hold faces [2i] and [2i + 1] of the input,
    for [i = k * capacity + j]. *)
Lemma regroup_even_deck cards (i1 i2 : Z) :
  (0 < i1 * i2)%Z -> Nat.Even (length cards) ->
  exists groups,
    regroup cards i1 i2 = Ok groups /\
    Nat.Even (length groups) /\
    forall (k : nat) (fronts backs : list A),
      groups !! (2 * k) = Some fronts -> groups !! (2 * k + 1) = Some backs ->
      length fronts = length backs /\
      forall (j : nat) (front back : A),
        fronts !! j = Some front -> backs !! j = Some back ->
        cards !! (2 * (k * Z.to_nat (i1 * i2) + j)) = Some front /\
        cards !! (2 * (k * Z.to_nat (i1 * i2) + j) + 1) = Some back.
Proof.
  intros Hcap Heven.
  set (cap := Z.to_nat (i1 * i2)).
  assert (HC : 0 < 2 * cap) by lia.
  assert (HZ : (2 * i1 * i2)%Z = Z.of_nat (2 * cap)) by lia.
  set (M := (length cards - 1) / (2 * cap)).
  eexists. split; [apply (regroup_closed cards i1 i2 (2 * cap) HC HZ)|].
  fold M. split.
  { exists (S M). rewrite length_app, length_full_groups. simpl. lia. }
  intros k fronts backs Hf Hb.
  destruct (Nat.lt_trichotomy k M) as [Hk|[->|Hk]].
  - rewrite lookup_app_l in Hf by (rewrite length_full_groups; lia).
    rewrite lookup_app_l in Hb by (rewrite length_full_groups; lia).
    destruct (lookup_full_groups cards (2 * cap) M 0 k Hk) as [Ef Eb].
    rewrite Ef in Hf. rewrite Eb in Hb. simplify_eq. cbn [Nat.add].
    replace (k * (2 * cap)) with (2 * (k * cap)) by lia.
    replace (2 * (k * cap) + 2 * cap + 1) with (S (2 * (k * cap) + 2 * cap)) by lia.
    apply (pair_of_slices cards (k * cap) (Some (2 * (k * cap) + 2 * cap)));
      [done|].
    intros e' [= <-]. exists (k * cap + cap). lia.
  - rewrite lookup_app_r in Hf by (rewrite length_full_groups; lia).
    rewrite lookup_app_r in Hb by (rewrite length_full_groups; lia).
    rewrite length_full_groups in Hf, Hb.
    replace (2 * M - 2 * M) with 0 in Hf by lia.
    replace (2 * M + 1 - 2 * M) with 1 in Hb by lia.
    cbn [lookup list_lookup] in Hf, Hb. simplify_eq.
    replace (M * (2 * cap)) with (2 * (M * cap)) by lia.
    apply (pair_of_slices cards (M * cap) None); [done|]. intros e' [=].
  - apply lookup_lt_Some in Hf.
    rewrite length_app, length_full_groups in Hf. simpl in Hf. lia.
Qed.

End Regroup.

Lemma lookup_faces {A} (pairs : list (A * A)) :
  forall (i : nat) (front back : A),
    faces pairs !! (2 * i)%nat = Some front ->
    faces pairs !! (2 * i + 1)%nat = Some back ->
    pairs !! i = Some (front, back).
Proof.
  induction pairs as [|[x y] pairs IH]; intros i front back Hf Hb; [done|].
  destruct i as [|i].
  - simpl in *. by simplify_eq.
  - replace (2 * S i)%nat with (S (S (2 * i))) in * by lia.
    simpl in Hf, Hb. apply (IH i); [exact Hf|].
    by replace (2 * i + 1)%nat with (i + (i + 0) + 1)%nat by lia.
Qed.

(** C1: for a positive capacity [cols * rows] and a face sequence of
    (front, back) pairs, the imposer's sheet groups come in consecutive
    pairs; groups [2k] and [2k + 1] have the same length, and their faces
    at position [j] are the front and the back of one pair of the input,
    pair number [k * capacity + j]. *)
Theorem pairing_invariant {A} (pairs : list (A * A)) (i1 i2 : Z) :
  0 < i1 * i2 ->
  exists groups,
    regroup (faces pairs) i1 i2 = Ok groups /\
    Nat.Even (length groups) /\
    forall (k : nat) (fronts backs : list A),
      groups !! (2 * k)%nat = Some fronts ->
      groups !! (2 * k + 1)%nat = Some backs ->
      length fronts = length backs /\
      forall (j : nat) (front back : A),
        fronts !! j = Some front -> backs !! j = Some back ->
        pairs !! (k * Z.to_nat (i1 * i2) + j)%nat = Some (front, back).
Proof.
  intros Hcap.
  destruct (regroup_even_deck (faces pairs) i1 i2 Hcap) as (groups & E & Hev & H).
  { exists (length pairs). apply length_faces. }
  exists groups. split; [exact E|]. split; [exact Hev|].
  intros k fronts backs Hf Hb.
  destruct (H k fronts backs Hf Hb) as [Hlen Hpos].
  split; [exact Hlen|].
  intros j front back Hfj Hbj.
  destruct (Hpos j front back Hfj Hbj) as [H1 H2].
  by apply lookup_faces.
Qed.

Lemma pairing_invariant_witness :
  exists groups,
    regroup (faces [(10, 11); (20, 21); (30, 31)]%nat) 1 2 = Ok groups /\
    Nat.Even (length groups) /\
    forall (k : nat) (fronts backs : list nat),
      groups !! (2 * k)%nat = Some fronts ->
      groups !! (2 * k + 1)%nat = Some backs ->
      length fronts = length backs /\
      forall (j : nat) (front back : nat),
        fronts !! j = Some front -> backs !! j = Some back ->
        [(10, 11); (20, 21); (30, 31)]%nat !! (k * Z.to_nat (1 * 2) + j)%nat
          = Some (front, back).
Proof.
  apply (pairing_invariant [(10, 11); (20, 21); (30, 31)]%nat 1 2).
  reflexivity.
Defined.

Example regroup_six_faces :
  regroup [10; 11; 20; 21; 30; 31]%nat 1 2 = Ok [[10; 20]; [11; 21]; [30]; [31]]%nat.
Proof. reflexivity. Qed.

(** An odd number of faces, which the deck builder never makes, leaves
    the last front without a back. *)
Example regroup_three_faces :
  regroup [10; 11; 20]%nat 1 1 = Ok [[10]; [11]; [20]; []]%nat.
Proof. reflexivity. Qed.

(** ** Mirroring the margins of a back card *)

Lemma Card_class_lm : Card_class !! "lm" = Some (VNum (float_of_int 3 * mm)).
Proof. reflexivity. Qed.

Lemma hasattr_lm (obj : gmap string value) : hasattr obj "lm" = true.
Proof.
  unfold hasattr, getattr. destruct (obj !! "lm"); [done|].
  by rewrite Card_class_lm.
Qed.

(** A card whose left margin is only the class attribute cannot be
    mirrored: [delattr] finds no instance attribute. *)
Lemma mirror_margins_class_only (obj : gmap string value) :
  obj !! "lm" = None -> mirror_margins obj = Raise AttributeError.
Proof.
  intros Hlm. unfold mirror_margins. rewrite hasattr_lm.
  unfold getattr. rewrite Hlm, Card_class_lm. simpl.
  unfold delattr, setattr. by rewrite lookup_insert_ne, Hlm.
Qed.

(** C8, as stated, fails on the cards the deck builder makes: their
    right margin is 4 mm, and after the step their left margin is the
    class default of 3 mm. *)
Lemma margin_swap_counterexample :
  getattr (QuizCard (kwDict (float_of_int 91, float_of_int 59) false)) "rm" = Ok (VNum (float_of_int 4 * mm)) /\
  (mirror_margins (QuizCard (kwDict (float_of_int 91, float_of_int 59) false)) ≫= fun obj => getattr obj "lm")
    = Ok (VNum (float_of_int 3 * mm)) /\
  (float_of_int 3 * mm)%float <> (float_of_int 4 * mm)%float.
Proof. vm_compute. repeat split. discriminate. Qed.

(** ** Imposing: the empty deck and the card that does not fit *)

Lemma regroup_nil {A} (i1 i2 : Z) : regroup (@nil A) i1 i2 = Ok [[]; []].
Proof. reflexivity. Qed.

(** With a non-zero modulus the enumeration never raises; what it adds to
    the groups is nothing (and [k] stays) or starts with a slice from [k]
    up to a positive stop. *)
Lemma regroup_loop_returns {A} (cards : list A) (i1 i2 : Z) :
  2 * i1 * i2 <> 0 ->
  forall (rest : list A) (j k : nat) (acc : list (list A)),
    exists (k' : nat) (ext : list (list A)),
      regroup_loop cards i1 i2 rest j k acc = Ok (k', acc ++ ext) /\
      ((ext = [] /\ k' = k) \/
       exists (j' : nat) (ext' : list (list A)),
         (0 < j')%nat /\ ext = slice2 cards k (Some j') :: ext').
Proof.
  intros HC. induction rest as [|card rest IH]; intros j k acc.
  - exists k, []. rewrite app_nil_r. split; [done|]. by left.
  - cbn [regroup_loop].
    destruct (Nat.ltb_spec 0 j) as [Hpos|Hzero].
    + unfold py_mod. destruct (Z.eqb_spec (2 * i1 * i2) 0) as [|_]; [done|].
      cbn [mbind result_bind mret result_ret].
      destruct (Z.of_nat j mod (2 * i1 * i2) =? 0).
      * destruct (IH (S j) j
                    ((acc ++ [slice2 cards k (Some j)])
                       ++ [slice2 cards (k + 1) (Some (j + 1)%nat)]))
          as (k' & ext & E & _).
        exists k', (slice2 cards k (Some j)
                      :: slice2 cards (k + 1) (Some (j + 1)%nat) :: ext).
        split.
        -- rewrite E. by rewrite <- !app_assoc.
        -- right. by exists j, (slice2 cards (k + 1) (Some (j + 1)%nat) :: ext).
      * apply IH.
    + cbn [mbind result_bind mret result_ret]. apply IH.
Qed.

(** So a non-empty deck has a non-empty first group. *)
Lemma regroup_first_group {A} (cards : list A) (i1 i2 : Z) (c : A) (cards' : list A) :
  2 * i1 * i2 <> 0 -> cards = c :: cards' ->
  exists (g : list A) (groups : list (list A)),
    regroup cards i1 i2 = Ok ((c :: g) :: groups).
Proof.
  intros HC ->. unfold regroup.
  destruct (regroup_loop_returns (c :: cards') i1 i2 HC (c :: cards') 0 0 [])
    as (k' & ext & E & [[-> ->]|(j' & ext' & Hj' & ->)]).
  - rewrite E. cbn [mbind result_bind mret result_ret app].
    eexists _, _. reflexivity.
  - rewrite E. cbn [mbind result_bind mret result_ret app].
    destruct j' as [|j']; [lia|].
    eexists _, _. reflexivity.
Qed.

(** With a zero capacity the enumeration of two or more faces divides by
    zero at the second face. *)
Lemma regroup_zero_capacity {A} (i1 i2 : Z) (c c' : A) (cards : list A) :
  i1 * i2 = 0 -> regroup (c :: c' :: cards) i1 i2 = Raise ZeroDivisionError.
Proof.
  intros Hcap. unfold regroup. cbn [regroup_loop Nat.ltb Nat.leb].
  cbn [mbind result_bind mret result_ret].
  unfold py_mod. replace (2 * i1 * i2) with 0 by lia. reflexivity.
Qed.

(** With counts a double can hold, [layout] lays every group out on the
    cells counted from [grid_origin]. *)
Lemma place_groups_origin (wrapOn : float -> float -> list flowable -> float)
    (pageSize cardSize : float * float) (i1 i2 : Z) (frame debug : bool) (g : nat)
    (cardGroup : list nat) (cardGroups : list (list nat))
    (h : list (gmap string value)) (pages : list (list op)) :
  Z.abs i1 <= max_float -> Z.abs i2 <= max_float ->
  place_groups wrapOn pageSize cardSize i1 i2 frame debug g
    (cardGroup :: cardGroups) h pages
  = '(h, canv) ←
      place_cards wrapOn pageSize cardSize i1 i2 frame debug g
        (cells g (grid_origin pageSize cardSize i1 i2).1
           (grid_origin pageSize cardSize i1 i2).2
           (fst cardSize) (snd cardSize) i1 i2)
        cardGroup 0 h [];
    place_groups wrapOn pageSize cardSize i1 i2 frame debug (S g) cardGroups h
      (pages ++ [if frame
                 then canv ++ [rect (float_of_int 0) (float_of_int 0)
                                 (fst pageSize) (snd pageSize)]
                 else canv]).
Proof.
  intros H1 H2. pose proof max_float_lt.
  destruct cardSize as [cw ch]. cbn [place_groups]. unfold py_mul_int.
  rewrite !py_float_ok by assumption.
  cbn [mbind result_bind mret result_ret].
  rewrite coords_cells by lia. reflexivity.
Qed.

(** The pages of an empty deck: one for each of the two empty groups. *)
Lemma layout_nil (wrapOn : float -> float -> list flowable -> float)
    (h : list (gmap string value)) (pageSize cardSize : float * float)
    (autoRotate frame debug : bool) (p : float * float) (i1 i2 : Z) :
  maximize_cards_on_page cardSize pageSize (Some nppm) autoRotate = Ok (p, i1, i2) ->
  layout wrapOn h [] pageSize cardSize autoRotate frame debug
  = Ok (h, [ (if frame
              then [rect (float_of_int 0) (float_of_int 0) (fst p) (snd p)]
              else []);
             (if frame
              then [rect (float_of_int 0) (float_of_int 0) (fst p) (snd p)]
              else []) ]).
Proof.
  intros E. destruct (maximize_bounds _ _ _ _ _ _ _ E) as [H1 H2].
  unfold layout. rewrite E. cbn [mbind result_bind].
  rewrite regroup_nil. cbn [mbind result_bind].
  rewrite place_groups_origin by assumption.
  cbn [place_cards mbind result_bind].
  rewrite place_groups_origin by assumption.
  cbn [place_cards mbind result_bind place_groups app]. reflexivity.
Qed.

(** The first card of the first (front) group is placed before anything
    is drawn: the cell lookup decides. *)
Lemma place_first_card (wrapOn : float -> float -> list flowable -> float)
    (pageSize cardSize : float * float) (i1 i2 : Z) (frame debug : bool)
    (c : nat) (g : list nat) (groups : list (list nat))
    (h : list (gmap string value)) (pages : list (list op)) :
  Z.abs i1 <= max_float -> Z.abs i2 <= max_float ->
  i1 <= 0 \/ i2 <= 0 ->
  place_groups wrapOn pageSize cardSize i1 i2 frame debug 0 ((c :: g) :: groups) h pages
  = Raise (if i1 * i2 =? 0 then ZeroDivisionError else IndexError).
Proof.
  intros H1 H2 Hle. rewrite place_groups_origin by assumption.
  rewrite cells_no_cell by done.
  cbn [place_cards Nat.modulo Nat.divmod fst snd Nat.eqb negb
       mbind result_bind mret result_ret Z.of_nat].
  unfold py_mod. destruct (i1 * i2 =? 0); [done|].
  rewrite Zmod_0_l. reflexivity.
Qed.

(** C7, as stated, fails: a card wider than the page gives zero columns,
    and the fitter returns them. *)
Lemma misfit_counterexample :
  maximize_cards_on_page (float_of_int 8, float_of_int 10)
    (float_of_int 4, float_of_int 100) None false
    = Ok ((float_of_int 4, float_of_int 100), 0, 10) /\
  0 <= 0 /\
  forall e : exn,
    maximize_cards_on_page (float_of_int 8, float_of_int 10)
      (float_of_int 4, float_of_int 100) None false <> Raise e.
Proof. vm_compute. repeat split; discriminate. Qed.

(** C7 (amended): the code has no geometry check.  When the fitter
    returns a grid with [cols <= 0] or [rows <= 0], the imposer goes on
    with that grid and, for a non-empty face sequence, stops at its own
    arithmetic: a [ZeroDivisionError] when the capacity is [0], an
    [IndexError] for the missing cell otherwise. *)
Theorem misfit_raises_in_imposer (wrapOn : float -> float -> list flowable -> float)
    (h : list (gmap string value)) (cards : list nat)
    (pageSize cardSize : float * float) (autoRotate frame debug : bool)
    (p : float * float) (i1 i2 : Z) :
  maximize_cards_on_page cardSize pageSize (Some nppm) autoRotate = Ok (p, i1, i2) ->
  i1 <= 0 \/ i2 <= 0 -> cards <> [] ->
  layout wrapOn h cards pageSize cardSize autoRotate frame debug
  = Raise (if i1 * i2 =? 0 then ZeroDivisionError else IndexError).
Proof.
  intros E Hle Hne. destruct (maximize_bounds _ _ _ _ _ _ _ E) as [H1 H2].
  unfold layout. rewrite E. cbn [mbind result_bind].
  destruct cards as [|c cards]; [done|].
  destruct (Z.eqb_spec (i1 * i2) 0) as [Hz|Hnz].
  - destruct cards as [|c' cards].
    + change (regroup [c] i1 i2) with (Ok [[c]; @nil nat]).
      cbn [mbind result_bind]. rewrite place_first_card by done.
      by rewrite Hz.
    + by rewrite regroup_zero_capacity.
  - destruct (regroup_first_group (c :: cards) i1 i2 c cards) as (g & groups & Eg);
      [lia|done|].
    rewrite Eg. cbn [mbind result_bind]. rewrite place_first_card by done.
    by destruct (Z.eqb_spec (i1 * i2) 0).
Qed.

Lemma misfit_raises_in_imposer_witness :
  layout (fun _ _ _ => float_of_int 0)
    [QuizCard (kwDict (float_of_int 400, float_of_int 59) false);
     QuizCard (kwDict (float_of_int 400, float_of_int 59) false)]
    [0%nat; 1%nat] (float_of_int 297, float_of_int 210)
    (float_of_int 400, float_of_int 59) true false false
  = Raise (if 0 * 2 =? 0 then ZeroDivisionError else IndexError).
Proof.
  apply (misfit_raises_in_imposer (fun _ _ _ => float_of_int 0)
           [QuizCard (kwDict (float_of_int 400, float_of_int 59) false);
            QuizCard (kwDict (float_of_int 400, float_of_int 59) false)]
           [0%nat; 1%nat] (float_of_int 297, float_of_int 210)
           (float_of_int 400, float_of_int 59) true false false
           (float_of_int 297, float_of_int 210) 0 2).
  - vm_compute. reflexivity.
  - left. lia.
  - discriminate.
Defined.

Example misfit_zero_capacity :
  layout (fun _ _ _ => float_of_int 0)
    [QuizCard (kwDict (float_of_int 400, float_of_int 59) false);
     QuizCard (kwDict (float_of_int 400, float_of_int 59) false)]
    [0%nat; 1%nat] (float_of_int 297, float_of_int 210)
    (float_of_int 400, float_of_int 59) true false false
  = Raise ZeroDivisionError.
Proof. vm_compute. reflexivity. Qed.

(** Margins wider than the page: a negative count, hence no cell. *)
Example misfit_no_cell :
  maximize_cards_on_page (float_of_int 10, float_of_int 59)
    (float_of_int 20, float_of_int 210) (Some nppm) false
  = Ok ((float_of_int 20, float_of_int 210), -2, 2) /\
  layout (fun _ _ _ => float_of_int 0)
    [QuizCard (kwDict (float_of_int 10, float_of_int 59) false);
     QuizCard (kwDict (float_of_int 10, float_of_int 59) false)]
    [0%nat; 1%nat] (float_of_int 20, float_of_int 210)
    (float_of_int 10, float_of_int 59) false false false
  = Raise IndexError.
Proof. vm_compute. split; reflexivity. Qed.

(** The fitter itself raises where [int] does: an infinite quotient. *)
Example fitter_overflow :
  maximize_cards_on_page
    (float_of_int 8, S754_finite false 1 (-1074))
    (float_of_int 4, float_of_int 100) None false
  = Raise OverflowError.
Proof. vm_compute. reflexivity. Qed.

(** C9, as stated, fails: the two closing slices are appended whatever
    the input, so the empty deck gives two (empty) groups and two pages. *)
Lemma empty_deck_counterexample :
  regroup (@nil nat) 3 3 = Ok [[]; []] /\
  length [@nil nat; @nil nat] <> 0%nat /\
  layout (fun _ _ _ => float_of_int 0) [] [] (landscape A4)
    ((float_of_decimal 91 1 * cm)%float, (float_of_decimal 59 1 * cm)%float)
    true true false
  = Ok ([], [ [rect (float_of_int 0) (float_of_int 0)
                 (float_of_int 297 * mm) (float_of_int 210 * mm)];
              [rect (float_of_int 0) (float_of_int 0)
                 (float_of_int 297 * mm) (float_of_int 210 * mm)] ]).
Proof. vm_compute. repeat split. discriminate. Qed.

(** C9 (amended): for an empty face sequence the imposer makes two empty
    sheet groups, a front and a back one; when the fitter returns it
    shows two pages that carry no card, only the border of the page the
    fitter returned when [frame] is set, raises no error and leaves the
    store as it was. *)
Theorem empty_deck_two_blank_pages (wrapOn : float -> float -> list flowable -> float)
    (h : list (gmap string value)) (pageSize cardSize : float * float)
    (autoRotate frame debug : bool) (p : float * float) (i1 i2 : Z) :
  maximize_cards_on_page cardSize pageSize (Some nppm) autoRotate = Ok (p, i1, i2) ->
  regroup (@nil nat) i1 i2 = Ok [[]; []] /\
  layout wrapOn h [] pageSize cardSize autoRotate frame debug
  = Ok (h, [ (if frame
              then [rect (float_of_int 0) (float_of_int 0) (fst p) (snd p)]
              else []);
             (if frame
              then [rect (float_of_int 0) (float_of_int 0) (fst p) (snd p)]
              else []) ]) /\
  forall page : list op,
    page ∈ [ (if frame
              then [rect (float_of_int 0) (float_of_int 0) (fst p) (snd p)]
              else []);
             (if frame
              then [rect (float_of_int 0) (float_of_int 0) (fst p) (snd p)]
              else []) ] ->
    cards_on page = 0%nat.
Proof.
  intros E. split; [apply regroup_nil|].
  split; [exact (layout_nil wrapOn h pageSize cardSize autoRotate frame debug p i1 i2 E)|].
  intros page Hin.
  assert (page = if frame
                 then [rect (float_of_int 0) (float_of_int 0) (fst p) (snd p)]
                 else []) as ->.
  { apply elem_of_cons in Hin as [->|Hin]; [done|].
    by apply list_elem_of_singleton in Hin. }
  by destruct frame.
Qed.

Lemma empty_deck_two_blank_pages_witness :
  regroup (@nil nat) 3 3 = Ok [[]; []] /\
  layout (fun _ _ _ => float_of_int 0) [] [] (float_of_int 842, float_of_int 595)
    (float_of_int 258, float_of_int 167) true true false
  = Ok ([], [ (if true
               then [rect (float_of_int 0) (float_of_int 0)
                       (fst (float_of_int 842, float_of_int 595))
                       (snd (float_of_int 842, float_of_int 595))]
               else []);
              (if true
               then [rect (float_of_int 0) (float_of_int 0)
                       (fst (float_of_int 842, float_of_int 595))
                       (snd (float_of_int 842, float_of_int 595))]
               else []) ]) /\
  forall page : list op,
    page ∈ [ (if true
              then [rect (float_of_int 0) (float_of_int 0)
                      (fst (float_of_int 842, float_of_int 595))
                      (snd (float_of_int 842, float_of_int 595))]
              else []);
             (if true
              then [rect (float_of_int 0) (float_of_int 0)
                      (fst (float_of_int 842, float_of_int 595))
                      (snd (float_of_int 842, float_of_int 595))]
              else []) ] ->
    cards_on page = 0%nat.
Proof.
  apply (empty_deck_two_blank_pages (fun _ _ _ => float_of_int 0) []
           (float_of_int 842, float_of_int 595) (float_of_int 258, float_of_int 167)
           true true false (float_of_int 842, float_of_int 595) 3 3).
  vm_compute. reflexivity.
Defined.

(** ** The script on a small document *)

Example answer_label_5 (it : item) :
  answer_block 5 it = [Paragraph "Answer 5:<br/><br/>" fine; a it].
Proof. reflexivity. Qed.

(** Five items: six pairs, twelve faces, one sheet of 3 x 3 cells printed
    on both sides, six cards a side. *)
Example five_items_two_pages :
  match
    make_cards_file (fun _ _ _ => float_of_int 0) [Paragraph "100 exercises" h1]
      (map (fun n => mkItem (Paragraph (fmt_d n) bt) (XPreformatted (fmt_d n) code))
         (seq 1 5))
      false []
  with
  | Ok (h, pages) =>
      (length h,
       map cards_on pages)
  | Raise e => (0%nat, [])
  end = (12%nat, [6%nat; 6%nat]).
Proof. vm_compute. reflexivity. Qed.

(** The cover card's back after imposing: its own left margin is gone. *)
Example cover_back_margins :
  match
    make_cards_file (fun _ _ _ => float_of_int 0) [Paragraph "100 exercises" h1] [] false []
  with
  | Ok (h, _) => (getattr (deref h 1) "lm", getattr (deref h 1) "rm")
  | Raise e => (Raise e, Raise e)
  end = (Ok (VNum (float_of_int 3 * mm)), Ok (VNum (float_of_int 4 * mm))).
Proof. vm_compute. reflexivity. Qed.

(** ** Drawing a story that holds an image *)


Example render_image_card :
  render (fun _ _ _ => float_of_int 0)
    (card_with (float_of_int 91, float_of_int 59) false
       [Paragraph "Question:" fine; Image "plot.png"])
    [] (float_of_int 0) (float_of_int 0) (float_of_int 91, float_of_int 59) true false
  = Raise NameError.
Proof. vm_compute. reflexivity. Qed.

(** * Further properties of the code *)

(** ** The grid fitter *)

(** The case of a quotient on which [int] fails. *)
Ltac raised E :=
  cbn [mbind result_bind first_raise]; split;
  [ intros [= <-]; right; repeat split; try done; exact (py_int_raise _ _ E)
  | intros [[_ [?|?]]|(_ & _ & _ & [= <-])]; done ].

(** X1: the fitter raises [ZeroDivisionError] exactly when a side of the
    card is zero.  With non-zero sides it raises exactly when [int]
    fails on one of its four quotients, taken in the order in which it
    computes them, and then with that [OverflowError] (an infinite
    quotient) or [ValueError] (a NaN); the rotation flag plays no part. *)
Theorem maximize_raises_iff (cardSize pageSize : float * float)
    (margins : option MarginRecord) (autoRotate : bool) (e : exn) :
  maximize_cards_on_page cardSize pageSize margins autoRotate = Raise e
  <-> (e = ZeroDivisionError /\
       (float_is_zero (fst cardSize) = true \/ float_is_zero (snd cardSize) = true))
      \/ (float_is_zero (fst cardSize) = false /\
          float_is_zero (snd cardSize) = false /\
          (e = OverflowError \/ e = ValueError) /\
          first_raise (py_int <$> quotients cardSize pageSize (margins_or_zero margins))
          = Some e).
Proof.
  rewrite maximize_counts.
  unfold upright_counts, rotated_counts, quotients, py_truediv.
  set (m := margins_or_zero margins).
  destruct (float_is_zero (fst cardSize)) eqn:Ew.
  { cbn [mbind result_bind]. split.
    - intros [= <-]. left. auto.
    - intros [[-> _]|(? & _)]; done. }
  destruct (float_is_zero (snd cardSize)) eqn:Eh.
  { cbn [mbind result_bind]. split.
    - intros [= <-]. left. auto.
    - intros [[-> _]|(_ & ? & _)]; done. }
  cbn [mbind result_bind fmap list_fmap first_raise].
  destruct (py_int (usableWidth pageSize m / fst cardSize)) as [i1|e1] eqn:E1;
    [|raised E1].
  cbn [mbind result_bind first_raise].
  destruct (py_int (usableHeight pageSize m / snd cardSize)) as [i2|e2] eqn:E2;
    [|raised E2].
  cbn [mbind result_bind first_raise]. unfold mret at 1, result_ret at 1.
  cbn [mbind result_bind].
  destruct (py_int (usableWidth pageSize m / snd cardSize)) as [j1|e3] eqn:E3;
    [|raised E3].
  cbn [mbind result_bind first_raise].
  destruct (py_int (usableHeight pageSize m / fst cardSize)) as [j2|e4] eqn:E4;
    [|raised E4].
  cbn [mbind result_bind first_raise]. unfold mret, result_ret.
  cbn [mbind result_bind]. split.
  - intros E. repeat case_match; discriminate.
  - intros [[_ [?|?]]|(_ & _ & _ & ?)]; discriminate.
Qed.

(** X3: with rotation allowed, when both pairs of counts are computed,
    the fitter turns the page exactly when the rotated yield is strictly
    larger than the upright one; the yield it returns is then the rotated
    one, and the upright one otherwise. *)
Theorem rotation_page_and_yield
    (cardSize pageSize : float * float) (margins : option MarginRecord)
    (i1 i2 j1 j2 : Z) :
  upright_counts cardSize pageSize (margins_or_zero margins) = Ok (i1, i2) ->
  rotated_counts cardSize pageSize (margins_or_zero margins) = Ok (j1, j2) ->
  exists p c r,
    maximize_cards_on_page cardSize pageSize margins true = Ok (p, c, r) /\
    ((i1 * i2 < j1 * j2 /\ p = reverse_seq2 pageSize /\ c * r = j1 * j2) \/
     (j1 * j2 <= i1 * i2 /\ p = pageSize /\ c * r = i1 * i2)).
Proof.
  intros Eu Er. rewrite maximize_counts, Eu, Er.
  cbn [mbind result_bind andb].
  destruct (Z.gtb_spec (j1 * j2) (i1 * i2)).
  - repeat case_match; simplify_eq; eexists _, _, _;
      (split; [reflexivity|left; repeat split; lia]).
  - repeat case_match; simplify_eq; eexists _, _, _;
      (split; [reflexivity|right; repeat split; lia]).
Qed.

Lemma rotation_page_and_yield_witness :
  exists p c r,
    maximize_cards_on_page (float_of_int 59, float_of_int 91)
      (float_of_int 297, float_of_int 210)
      (Some (mkMargins (float_of_int 7) (float_of_int 7)
               (float_of_int 15) (float_of_int 15))) true
    = Ok (p, c, r) /\
    ((4 * 1 < 3 * 3 /\
      p = reverse_seq2 (float_of_int 297, float_of_int 210) /\ c * r = 3 * 3) \/
     (3 * 3 <= 4 * 1 /\ p = (float_of_int 297, float_of_int 210) /\ c * r = 4 * 1)).
Proof.
  apply (rotation_page_and_yield (float_of_int 59, float_of_int 91)
           (float_of_int 297, float_of_int 210)
           (Some (mkMargins (float_of_int 7) (float_of_int 7)
                    (float_of_int 15) (float_of_int 15)))
           4 1 3 3);
    vm_compute; reflexivity.
Defined.

(** X5: when rotating the page does not give a strictly larger yield, the
    fitter with rotation allowed keeps the page and returns the upright
    counts, exchanged exactly when the page is portrait ([width <=
    height]) and the card is landscape ([width > height]). *)
Theorem no_gain_keeps_or_transposes
    (cardSize pageSize : float * float) (margins : option MarginRecord)
    (c r j1 j2 : Z) :
  upright_counts cardSize pageSize (margins_or_zero margins) = Ok (c, r) ->
  rotated_counts cardSize pageSize (margins_or_zero margins) = Ok (j1, j2) ->
  j1 * j2 <= c * r ->
  maximize_cards_on_page cardSize pageSize margins false = Ok (pageSize, c, r) /\
  (float_le (fst pageSize) (snd pageSize) = true /\
   float_lt (snd cardSize) (fst cardSize) = true ->
   maximize_cards_on_page cardSize pageSize margins true = Ok (pageSize, r, c)) /\
  (~ (float_le (fst pageSize) (snd pageSize) = true /\
      float_lt (snd cardSize) (fst cardSize) = true) ->
   maximize_cards_on_page cardSize pageSize margins true = Ok (pageSize, c, r)).
Proof.
  intros Eu Er Hle. rewrite !maximize_counts, Eu, Er.
  cbn [mbind result_bind andb].
  destruct (Z.gtb_spec (j1 * j2) (c * r)); [lia|].
  split; [reflexivity|]. cbn [fst snd].
  destruct (float_le (fst pageSize) (snd pageSize));
    destruct (float_lt (snd cardSize) (fst cardSize));
    (split; intros Hc; [|try reflexivity]; try reflexivity;
     try (by destruct Hc); exfalso; by apply Hc).
Qed.

Lemma no_gain_keeps_or_transposes_witness :
  maximize_cards_on_page (float_of_int 91, float_of_int 59)
    (float_of_int 210, float_of_int 297)
    (Some (mkMargins (float_of_int 7) (float_of_int 7)
             (float_of_int 15) (float_of_int 15))) false
    = Ok ((float_of_int 210, float_of_int 297), 2, 4) /\
  (float_le (fst (float_of_int 210, float_of_int 297))
     (snd (float_of_int 210, float_of_int 297)) = true /\
   float_lt (snd (float_of_int 91, float_of_int 59))
     (fst (float_of_int 91, float_of_int 59)) = true ->
   maximize_cards_on_page (float_of_int 91, float_of_int 59)
     (float_of_int 210, float_of_int 297)
     (Some (mkMargins (float_of_int 7) (float_of_int 7)
              (float_of_int 15) (float_of_int 15))) true
     = Ok ((float_of_int 210, float_of_int 297), 4, 2)) /\
  (~ (float_le (fst (float_of_int 210, float_of_int 297))
        (snd (float_of_int 210, float_of_int 297)) = true /\
      float_lt (snd (float_of_int 91, float_of_int 59))
        (fst (float_of_int 91, float_of_int 59)) = true) ->
   maximize_cards_on_page (float_of_int 91, float_of_int 59)
     (float_of_int 210, float_of_int 297)
     (Some (mkMargins (float_of_int 7) (float_of_int 7)
              (float_of_int 15) (float_of_int 15))) true
     = Ok ((float_of_int 210, float_of_int 297), 2, 4)).
Proof.
  apply (no_gain_keeps_or_transposes (float_of_int 91, float_of_int 59)
           (float_of_int 210, float_of_int 297)
           (Some (mkMargins (float_of_int 7) (float_of_int 7)
                    (float_of_int 15) (float_of_int 15)))
           2 4 3 2).
  - vm_compute. reflexivity.
  - vm_compute. reflexivity.
  - lia.
Defined.

(** ** The cells of a fitted grid *)

(** X24: for the counts the fitter returns, the list of cells is built
    without an exception (no index is too large for a double), whatever
    the origin and the card size, and it has [rows * cols] cells, for a
    front and a back sheet alike; none when a count is zero or
    negative. *)
Theorem coords_of_fitted_grid (cardSize pageSize : float * float)
    (margins : option MarginRecord) (autoRotate : bool)
    (p : float * float) (i1 i2 : Z) (g : nat) (x0 y0 cw ch : float) :
  maximize_cards_on_page cardSize pageSize margins autoRotate = Ok (p, i1, i2) ->
  exists coords_g : list (float * float),
    coords g x0 y0 cw ch i1 i2 = Ok coords_g /\
    length coords_g = (Z.to_nat i2 * Z.to_nat i1)%nat /\
    (i1 <= 0 \/ i2 <= 0 -> coords_g = []).
Proof.
  intros E. destruct (maximize_bounds _ _ _ _ _ _ _ E) as [H1 H2].
  pose proof max_float_lt.
  exists (cells g x0 y0 cw ch i1 i2).
  split; [apply coords_cells; lia|].
  split; [apply length_cells|apply cells_no_cell].
Qed.

Lemma coords_of_fitted_grid_witness :
  exists coords_g : list (float * float),
    coords 1 (float_of_int 0) (float_of_int 0) (float_of_int 91) (float_of_int 59)
      3 3 = Ok coords_g /\
    length coords_g = (Z.to_nat 3 * Z.to_nat 3)%nat /\
    (3 <= 0 \/ 3 <= 0 -> coords_g = []).
Proof.
  apply (coords_of_fitted_grid (float_of_int 91, float_of_int 59)
           (float_of_int 297, float_of_int 210)
           (Some (mkMargins (float_of_int 7) (float_of_int 7)
                    (float_of_int 15) (float_of_int 15)))
           true (float_of_int 297, float_of_int 210) 3 3 1
           (float_of_int 0) (float_of_int 0) (float_of_int 91) (float_of_int 59)).
  vm_compute. reflexivity.
Defined.

(** ** Regrouping: how many groups, how large, and nothing lost *)

Section RegroupMore.
Local Open Scope nat_scope.

Context {A : Type}.
Implicit Types (l cards : list A).

Lemma length_stride2 l : length (stride2 l) = (length l + 1) / 2.
Proof.
  assert (H : forall l, length (stride2 l) = (length l + 1) / 2 /\
                        forall x, length (stride2 (x :: l)) = (length l + 2) / 2).
  { clear l. induction l as [|y l [IH1 IH2]].
    - split; [done|]. intros x. reflexivity.
    - split; [rewrite IH2; simpl length; f_equal; lia|].
      intros x. cbn [stride2 length]. rewrite IH1.
      replace (S (length l) + 2) with (length l + 1 + 1 * 2) by lia.
      rewrite Nat.div_add by lia. lia. }
  apply H.
Qed.

Lemma length_slice2_stop cards (s e : nat) :
  e <= length cards ->
  length (slice2 cards s (Some e)) = (e - s + 1) / 2.
Proof.
  intros He. unfold slice2.
  rewrite length_stride2, length_drop, length_take. do 2 f_equal. lia.
Qed.

Lemma length_slice2_open cards (s : nat) :
  length (slice2 cards s None) = (length cards - s + 1) / 2.
Proof. unfold slice2. by rewrite length_stride2, length_drop. Qed.

(** The last super-chunk starts inside the deck and ends with it. *)
Lemma last_chunk_bounds (n C : nat) :
  0 < C -> (n - 1) / C * C <= n /\ n <= (n - 1) / C * C + C.
Proof.
  intros HC.
  pose proof (Nat.div_mod_eq (n - 1) C) as Hdm.
  pose proof (Nat.mod_upper_bound (n - 1) C) as Hub.
  split; nia.
Qed.

Lemma interleave_stride2 l : interleave (stride2 l) (stride2 (tail l)) = l.
Proof.
  assert (H : forall l, interleave (stride2 l) (stride2 (tail l)) = l /\
                        forall x, interleave (stride2 (x :: l)) (stride2 l) = x :: l).
  { clear l. induction l as [|y l [IH1 IH2]].
    - split; [done|]. intros x. reflexivity.
    - split; [apply IH2|]. intros x.
      change (stride2 (x :: y :: l)) with (x :: stride2 l).
      replace (stride2 (y :: l)) with (y :: stride2 (tail l)) by (by destruct l).
      cbn [interleave]. by rewrite IH1. }
  apply H.
Qed.

(** A front slice and the back slice one later give the chunk back, when
    the chunk has an even number of faces. *)
Lemma interleave_slices_stop cards (s c : nat) :
  interleave (slice2 cards s (Some (s + 2 * c)))
             (slice2 cards (s + 1) (Some (s + 2 * c + 1)))
  = drop s (take (s + 2 * c) cards).
Proof.
  unfold slice2.
  replace (stride2 (drop (s + 1) (take (s + 2 * c + 1) cards)))
    with (stride2 (tail (drop s (take (s + 2 * c) cards)))).
  { apply interleave_stride2. }
  apply list_eq. intros p.
  rewrite !lookup_stride2, lookup_tail, !lookup_drop, !lookup_take.
  repeat case_decide; try lia; f_equal; lia.
Qed.

Lemma interleave_slices_open cards (s : nat) :
  interleave (slice2 cards s None) (slice2 cards (s + 1) None) = drop s cards.
Proof.
  unfold slice2.
  replace (drop (s + 1) cards) with (tail (drop s cards)).
  { apply interleave_stride2. }
  apply list_eq. intros p. rewrite lookup_tail, !lookup_drop. f_equal. lia.
Qed.

Lemma drop_take_chain l (a b c : nat) :
  a <= b -> b <= c -> drop a (take b l) ++ drop b (take c l) = drop a (take c l).
Proof.
  intros Hab Hbc.
  rewrite <- (take_drop b (take c l)) at 2.
  rewrite take_take, Nat.min_l by lia.
  rewrite drop_app. f_equal.
  destruct (Nat.le_gt_cases b (length l)) as [Hb|Hb].
  - rewrite length_take. by replace (a - b `min` length l) with 0 by lia.
  - rewrite (drop_ge _ b) by (rewrite length_take; lia). by rewrite drop_nil.
Qed.

Lemma ungroup_full_groups cards (C' : nat) (n : nat) :
  forall (m : nat) (rest : list (list A)),
    ungroup (full_groups cards (2 * C') m n ++ rest)
    = drop (m * (2 * C')) (take ((m + n) * (2 * C')) cards) ++ ungroup rest.
Proof.
  induction n as [|n IH]; intros m rest.
  - cbn [full_groups app]. rewrite Nat.add_0_r.
    rewrite drop_ge by (rewrite length_take; lia). done.
  - cbn [full_groups app ungroup].
    rewrite IH.
    rewrite (interleave_slices_stop cards (m * (2 * C')) C').
    rewrite app_assoc. f_equal.
    replace ((S m + n) * (2 * C')) with ((m + S n) * (2 * C')) by lia.
    replace (S m * (2 * C')) with (m * (2 * C') + 2 * C') by lia.
    apply drop_take_chain; nia.
Qed.

End RegroupMore.

(** X6: for a positive capacity the number of sheet groups is twice the
    number of sheets, and the sheets are just enough for the faces:
    [n] faces (any number, [n > 0]) take [s] sheets with
    [(s - 1) * 2 * capacity < n <= s * 2 * capacity]; an empty deck still
    takes one. *)
Theorem regroup_group_count {A} (cards : list A) (i1 i2 : Z) :
  0 < i1 * i2 ->
  exists (groups : list (list A)) (sheets : nat),
    regroup cards i1 i2 = Ok groups /\
    length groups = (2 * sheets)%nat /\
    (1 <= sheets)%nat /\
    (length cards <= sheets * (2 * Z.to_nat (i1 * i2)))%nat /\
    ((0 < length cards)%nat ->
     ((sheets - 1) * (2 * Z.to_nat (i1 * i2)) < length cards)%nat).
Proof.
  intros Hcap. set (cap := Z.to_nat (i1 * i2)).
  assert (HC : (0 < 2 * cap)%nat) by lia.
  assert (HZ : 2 * i1 * i2 = Z.of_nat (2 * cap)) by lia.
  exists (full_groups cards (2 * cap) 0 ((length cards - 1) / (2 * cap))
            ++ [slice2 cards ((length cards - 1) / (2 * cap) * (2 * cap)) None;
                slice2 cards ((length cards - 1) / (2 * cap) * (2 * cap) + 1) None]),
         (S ((length cards - 1) / (2 * cap))).
  split; [by apply regroup_closed|].
  split; [rewrite length_app, length_full_groups; simpl; lia|].
  split; [lia|].
  pose proof (Nat.div_mod_eq (length cards - 1) (2 * cap)) as Hdm.
  pose proof (Nat.mod_upper_bound (length cards - 1) (2 * cap)) as Hub.
  split; [nia|]. intros Hn. nia.
Qed.

Lemma regroup_group_count_witness :
  exists (groups : list (list nat)) (sheets : nat),
    regroup (seq 0 40) 3 3 = Ok groups /\
    length groups = (2 * sheets)%nat /\
    (1 <= sheets)%nat /\
    (length (seq 0 40) <= sheets * (2 * Z.to_nat (3 * 3)))%nat /\
    ((0 < length (seq 0 40))%nat ->
     ((sheets - 1) * (2 * Z.to_nat (3 * 3)) < length (seq 0 40))%nat).
Proof. apply (regroup_group_count (seq 0 40) 3 3). reflexivity. Defined.

(** X7: for a positive capacity no sheet group holds more faces than the
    grid has cells, and every group but the last two is full. *)
Theorem regroup_group_sizes {A} (cards : list A) (i1 i2 : Z) :
  0 < i1 * i2 ->
  exists groups : list (list A),
    regroup cards i1 i2 = Ok groups /\
    forall (i : nat) (g : list A),
      groups !! i = Some g ->
      (length g <= Z.to_nat (i1 * i2))%nat /\
      ((i + 2 < length groups)%nat -> length g = Z.to_nat (i1 * i2)).
Proof.
  intros Hcap. set (cap := Z.to_nat (i1 * i2)).
  assert (HC : (0 < 2 * cap)%nat) by lia.
  assert (HZ : 2 * i1 * i2 = Z.of_nat (2 * cap)) by lia.
  set (M := ((length cards - 1) / (2 * cap))%nat).
  eexists. split; [by apply (regroup_closed cards i1 i2 (2 * cap))|].
  fold M. intros i g Hg.
  destruct (last_chunk_bounds (length cards) (2 * cap) HC) as [Hlo Hhi]. fold M in Hlo, Hhi.
  assert (Hhalf : forall x, ((2 * x + 1) / 2 = x)%nat).
  { intros x. symmetry. apply (Nat.div_unique _ 2 x 1); lia. }
  assert (Hhalf' : forall x, ((2 * x) / 2 = x)%nat).
  { intros x. symmetry. apply (Nat.div_unique _ 2 x 0); lia. }
  rewrite length_app, length_full_groups. cbn [length].
  destruct (Nat.lt_ge_cases i (2 * M)) as [Hi|Hi].
  - rewrite lookup_app_l in Hg by (rewrite length_full_groups; lia).
    assert (Hk : (i / 2 < M)%nat) by (apply Nat.Div0.div_lt_upper_bound; lia).
    destruct (lookup_full_groups cards (2 * cap) M 0 (i / 2) Hk) as [Ef Eb].
    cbn [Nat.add] in Ef, Eb.
    assert (Hfull : ((i / 2) * (2 * cap) + 2 * cap <= length cards - 1)%nat).
    { pose proof (Nat.Div0.mul_div_le (length cards - 1) (2 * cap)) as HM.
      fold M in HM.
      assert ((i / 2 + 1) * (2 * cap) <= M * (2 * cap))%nat
        by (apply Nat.mul_le_mono_r; lia).
      lia. }
    pose proof (Nat.div_mod_eq i 2) as Hi2.
    pose proof (Nat.mod_upper_bound i 2 ltac:(lia)) as Hub.
    assert (length g = cap) as ->; [|lia].
    destruct (Nat.eq_dec (i mod 2)%nat 0%nat) as [E0|E0].
    + replace (2 * (i / 2))%nat with i in Ef by lia.
      rewrite Ef in Hg. simplify_eq.
      rewrite length_slice2_stop by lia.
      replace (i / 2 * (2 * cap) + 2 * cap - i / 2 * (2 * cap) + 1)%nat
        with (2 * cap + 1)%nat by lia.
      apply Hhalf.
    + replace (2 * (i / 2) + 1)%nat with i in Eb by lia.
      rewrite Eb in Hg. simplify_eq.
      rewrite length_slice2_stop by lia.
      replace (i / 2 * (2 * cap) + 2 * cap + 1 - (i / 2 * (2 * cap) + 1) + 1)%nat
        with (2 * cap + 1)%nat by lia.
      apply Hhalf.
  - rewrite lookup_app_r in Hg by (rewrite length_full_groups; lia).
    rewrite length_full_groups in Hg.
    assert (Hi' : (i < 2 * M + 2)%nat).
    { apply lookup_lt_Some in Hg. simpl in Hg. lia. }
    split; [|lia].
    destruct (Nat.eq_dec i (2 * M)%nat) as [->|Hne].
    + rewrite Nat.sub_diag in Hg. cbn [lookup list_lookup] in Hg. simplify_eq.
      rewrite length_slice2_open.
      apply (Nat.le_trans _ ((2 * cap + 1) / 2)%nat); [|by rewrite Hhalf].
      apply Nat.Div0.div_le_mono. lia.
    + replace (i - 2 * M)%nat with 1%nat in Hg by lia.
      cbn [lookup list_lookup] in Hg. simplify_eq.
      rewrite length_slice2_open.
      apply (Nat.le_trans _ ((2 * cap) / 2)%nat); [|by rewrite Hhalf'].
      apply Nat.Div0.div_le_mono. lia.
Qed.

Lemma regroup_group_sizes_witness :
  exists groups : list (list nat),
    regroup (seq 0 40) 3 3 = Ok groups /\
    forall (i : nat) (g : list nat),
      groups !! i = Some g ->
      (length g <= Z.to_nat (3 * 3))%nat /\
      ((i + 2 < length groups)%nat -> length g = Z.to_nat (3 * 3)).
Proof. apply (regroup_group_sizes (seq 0 40) 3 3). reflexivity. Defined.

(** X8: for a positive capacity the regrouping loses, repeats and
    reorders nothing: taking fronts and backs of each sheet in turn, sheet
    after sheet, gives the face sequence back (whatever its length). *)
Theorem regroup_lossless {A} (cards : list A) (i1 i2 : Z) :
  0 < i1 * i2 ->
  exists groups : list (list A),
    regroup cards i1 i2 = Ok groups /\ ungroup groups = cards.
Proof.
  intros Hcap. set (cap := Z.to_nat (i1 * i2)).
  assert (HC : (0 < 2 * cap)%nat) by lia.
  assert (HZ : 2 * i1 * i2 = Z.of_nat (2 * cap)) by lia.
  set (M := ((length cards - 1) / (2 * cap))%nat).
  eexists. split; [by apply (regroup_closed cards i1 i2 (2 * cap))|].
  fold M. rewrite ungroup_full_groups. cbn [ungroup Nat.add Nat.mul].
  rewrite interleave_slices_open, app_nil_r.
  rewrite drop_0. apply take_drop.
Qed.

Lemma regroup_lossless_witness :
  exists groups : list (list nat),
    regroup (seq 0 41) 3 3 = Ok groups /\ ungroup groups = seq 0 41.
Proof. apply (regroup_lossless (seq 0 41) 3 3). reflexivity. Defined.

(** X9: the regrouping raises exactly for a zero capacity and two or more
    faces, and then it is the [ZeroDivisionError] of [j % (2 * i1 * i2)];
    with at most one face the modulus is never evaluated. *)
Theorem regroup_raises_iff {A} (cards : list A) (i1 i2 : Z) (e : exn) :
  regroup cards i1 i2 = Raise e
  <-> e = ZeroDivisionError /\ i1 * i2 = 0 /\ (2 <= length cards)%nat.
Proof.
  split.
  - intros E. destruct (Z.eq_dec (i1 * i2) 0) as [Hz|Hnz].
    + destruct cards as [|c [|c' cards]]; [done|done|].
      rewrite regroup_zero_capacity in E by done.
      split; [congruence|]. split; [done|simpl; lia].
    + unfold regroup in E.
      destruct (regroup_loop_returns cards i1 i2 ltac:(lia) cards 0 0 [])
        as (k' & ext & E' & _).
      by rewrite E' in E.
  - intros (-> & Hz & Hlen).
    destruct cards as [|c [|c' cards]]; [simpl in Hlen; lia..|].
    by apply regroup_zero_capacity.
Qed.

(** ** Mirroring once, and only once *)

(** The step on its own: the right margin takes the former left margin,
    the card's own left margin is deleted and then reads as the class
    default of 3 mm; no other attribute changes. *)
Lemma mirror_margins_step (obj : gmap string value) (v : value) :
  obj !! "lm" = Some v ->
  mirror_margins obj = Ok (mirrored obj) /\
  getattr (mirrored obj) "rm" = Ok v /\
  getattr (mirrored obj) "lm" = Ok (VNum (float_of_int 3 * mm)) /\
  forall name : string,
    name <> "lm" -> name <> "rm" -> mirrored obj !! name = obj !! name.
Proof.
  intros Hlm. unfold mirrored. rewrite Hlm. split.
  { unfold mirror_margins. rewrite hasattr_lm.
    unfold getattr at 1. rewrite Hlm. cbn [mbind result_bind].
    unfold delattr, setattr. by rewrite lookup_insert_ne, Hlm. }
  unfold getattr, setattr. split; [|split].
  - by rewrite lookup_delete_ne, lookup_insert_eq.
  - by rewrite lookup_delete_eq, Card_class_lm.
  - intros name Hl Hr. by rewrite lookup_delete_ne, lookup_insert_ne.
Qed.

(** X13: the margin step of a back sheet succeeds exactly on a card that
    has a left margin of its own; otherwise it raises [AttributeError].
    After it the card has no left margin of its own, so that applying the
    step again to the same card raises. *)
Theorem mirror_margins_once (obj : gmap string value) :
  match mirror_margins obj with
  | Ok obj' =>
      is_Some (obj !! "lm") /\ obj' !! "lm" = None /\
      mirror_margins obj' = Raise AttributeError
  | Raise e => e = AttributeError /\ obj !! "lm" = None
  end.
Proof.
  destruct (obj !! "lm") as [v|] eqn:Hlm.
  - unfold mirror_margins. rewrite hasattr_lm.
    unfold getattr at 1. rewrite Hlm. cbn [mbind result_bind].
    unfold delattr, setattr. rewrite lookup_insert_ne, Hlm by done.
    split; [done|].
    assert (Hnone : delete "lm" (<["rm" := v]> obj) !! "lm" = None)
      by apply lookup_delete_eq.
    split; [exact Hnone|]. by apply mirror_margins_class_only.
  - by rewrite mirror_margins_class_only.
Qed.

(** ** Resizing a story *)




(** Without a box the attribute reads fail first, whatever the story. *)
Example resize_images_no_box : resize_images ∅ [] = Raise AttributeError.
Proof. reflexivity. Qed.

(** X15: when it succeeds, [resize_images] keeps the length and the order
    of the story, turns every string into a body-text paragraph, leaves
    every other item as it is, and has nothing left to do on its result. *)
Theorem resize_story_result (story story' : list flowable) :
  resize_story story = Ok story' ->
  length story' = length story /\
  (forall (i : nat) (el : flowable),
     story !! i = Some el ->
     story' !! i = Some (match el with Str s => Paragraph s bt | _ => el end)) /\
  resize_story story' = Ok story'.
Proof.
  revert story'. induction story as [|el story IH]; intros story' E.
  - simpl in E. by simplify_eq.
  - simpl in E.
    destruct (resize_story story) as [rest|e'] eqn:Es;
      [|by destruct el].
    destruct (IH rest eq_refl) as (Hlen & Hget & Hidem).
    destruct el as [t st|t st|f|t]; simpl in E; unfold mret, result_ret in E;
      simplify_eq; (split; [simpl; by rewrite Hlen|]);
      (split; [intros [|i] el Hi; simpl in *; [by simplify_eq|by apply Hget]|]);
      simpl; by rewrite Hidem.
Qed.

Lemma resize_story_result_witness :
  length [Paragraph "Question:" fine; Paragraph "1. Import pandas" bt]
    = length [Paragraph "Question:" fine; Str "1. Import pandas"] /\
  (forall (i : nat) (el : flowable),
     [Paragraph "Question:" fine; Str "1. Import pandas"] !! i = Some el ->
     [Paragraph "Question:" fine; Paragraph "1. Import pandas" bt] !! i
       = Some (match el with Str s => Paragraph s bt | _ => el end)) /\
  resize_story [Paragraph "Question:" fine; Paragraph "1. Import pandas" bt]
    = Ok [Paragraph "Question:" fine; Paragraph "1. Import pandas" bt].
Proof.
  apply (resize_story_result [Paragraph "Question:" fine; Str "1. Import pandas"]).
  reflexivity.
Defined.

(** ** Rendering a card *)

Lemma resize_story_image_free (story : list flowable) :
  image_free story -> resize_story story = Ok (resized story).
Proof.
  intros Hfree. induction story as [|el story IH]; [done|].
  assert (Hrest : image_free story).
  { intros f Hf. apply (Hfree f). by apply elem_of_cons; right. }
  simpl. rewrite (IH Hrest).
  destruct el as [t st|t st|f|t]; try reflexivity.
  exfalso. apply (Hfree f). by apply elem_of_cons; left.
Qed.

Lemma getattr_margin (o : gmap string value) (name : string) :
  num_or_unset o name -> name ∈ ["lm"; "rm"; "tm"; "bm"] ->
  getattr o name = Ok (VNum (margin o name)).
Proof.
  intros Hnum Hin. unfold margin, getattr, num_or_unset in *.
  destruct (o !! name) as [[]|]; try done.
  repeat (apply elem_of_cons in Hin as [->|Hin]; [reflexivity|]).
  by apply elem_of_nil in Hin.
Qed.

Ltac attr :=
  repeat (rewrite getattr_setattr_eq
          || rewrite getattr_setattr_ne by discriminate).

Lemma resized_image_free (story : list flowable) :
  image_free story -> image_free (resized story).
Proof.
  intros Hfree f Hf. unfold resized in Hf.
  apply list_elem_of_In, in_map_iff in Hf as (el & Hel & Hin).
  apply list_elem_of_In in Hin.
  destruct el; try discriminate. simplify_eq. by apply (Hfree f).
Qed.

(** Rendering a renderable card: what is drawn, and the card afterwards
    (still renderable, its margins as before). *)
Lemma render_renderable (wrapOn : float -> float -> list flowable -> float)
    (self : gmap string value) (canv : list op) (x0 y0 : float)
    (size : float * float) (frame debug : bool) :
  renderable self ->
  exists self',
    render wrapOn self canv x0 y0 size frame debug
    = Ok (self',
          canv ++ drawn wrapOn self x0 y0 size
            :: (if frame then [rect x0 y0 (fst size) (snd size)] else [])) /\
    renderable self' /\
    forall name : string,
      name ∈ ["lm"; "rm"; "tm"; "bm"] -> self' !! name = self !! name.
Proof.
  intros ((story & Htext & Hfree) & Hl & Hr & Ht & Hb).
  assert (Hin : forall name : string,
            In name ["lm"; "rm"; "tm"; "bm"] -> name ∈ ["lm"; "rm"; "tm"; "bm"])
    by (intros name; apply list_elem_of_In).
  pose proof (getattr_margin self "lm" Hl ltac:(apply Hin; simpl; tauto)) as El.
  pose proof (getattr_margin self "rm" Hr ltac:(apply Hin; simpl; tauto)) as Er.
  pose proof (getattr_margin self "tm" Ht ltac:(apply Hin; simpl; tauto)) as Et.
  pose proof (getattr_margin self "bm" Hb ltac:(apply Hin; simpl; tauto)) as Eb.
  assert (Etext : getattr self "text" = Ok (VStory story))
    by (unfold getattr; by rewrite Htext).
  assert (Estory : story_of self = story) by (unfold story_of; by rewrite Htext).
  unfold drawn. rewrite Estory.
  destruct size as [width height].
  unfold render. cbn [setattrs foldl fst snd].
  attr. cbn [mbind result_bind as_size as_num]. attr.
  rewrite El. cbn [mbind result_bind as_size as_num]. attr.
  rewrite Et. cbn [mbind result_bind as_size as_num].
  unfold draw. attr. cbn [mbind result_bind as_size as_num].
  rewrite Etext. cbn [mbind result_bind as_story].
  unfold resize_images. attr. rewrite El, Er, Et, Eb.
  cbn [mbind result_bind as_size as_num].
  rewrite (resize_story_image_free story Hfree).
  cbn [mbind result_bind as_size as_num]. attr.
  rewrite El, Er, Eb. cbn [mbind result_bind as_size as_num mret result_ret].
  unfold end_. attr. cbn [mbind result_bind truthy].
  set (self' :=
         setattr
           (setattr
              (setattr
                 (setattr
                    (setattr
                       (setattr
                          (setattr
                             (setattr
                                (setattr
                                   (setattr
                                      (setattr
                                         (setattr
                                            (setattr self "canv" VCanv)
                                            "x0" (VNum x0))
                                         "y0" (VNum y0))
                                      "size" (VSize (width, height)))
                                   "frame" (VBool frame))
                                "debug" (VBool debug))
                             "width" (VNum width))
                          "height" (VNum height))
                       "xp" (VNum (x0 + margin self "lm")%float))
                    "yp" (VNum (y0 + height - margin self "tm")%float))
                 "text" (VStory (resized story)))
              "xp" (VNum (x0 + margin self "lm" + float_of_int 0)%float))
           "yp"
           (VNum
              (y0 + height - margin self "tm"
               + (- wrapOn (width - margin self "lm" - margin self "rm")%float
                      (y0 + height - margin self "tm" - y0 - margin self "bm")%float
                      (resized story)
                  - float_of_int 5 * mm))%float)).
  exists self'. split.
  { destruct frame.
    - attr. cbn [mbind result_bind as_size as_num mret result_ret].
      rewrite <- app_assoc. reflexivity.
    - cbn [mret result_ret mbind result_bind]. reflexivity. }
  assert (Hsame : forall name : string,
            name ∈ ["lm"; "rm"; "tm"; "bm"] -> self' !! name = self !! name).
  { intros name Hname. unfold self', setattr.
    repeat (apply elem_of_cons in Hname as [->|Hname];
            [by rewrite !lookup_insert_ne by discriminate|]).
    by apply elem_of_nil in Hname. }
  split; [|exact Hsame].
  unfold renderable, num_or_unset.
  rewrite (Hsame "lm") by (apply Hin; simpl; tauto).
  rewrite (Hsame "rm") by (apply Hin; simpl; tauto).
  rewrite (Hsame "tm") by (apply Hin; simpl; tauto).
  rewrite (Hsame "bm") by (apply Hin; simpl; tauto).
  split; [|done].
  exists (resized story). split; [|by apply resized_image_free].
  unfold self', setattr.
  rewrite !lookup_insert_ne by discriminate. apply lookup_insert_eq.
Qed.

(** ** Placing the cards of a deck *)

Lemma deref_insert_eq (h : list (gmap string value)) (l : nat) (o : gmap string value) :
  (l < length h)%nat -> deref (<[l := o]> h) l = o.
Proof. intros Hl. unfold deref. by rewrite list_lookup_insert_eq. Qed.

Lemma deref_insert_ne (h : list (gmap string value)) (l l' : nat)
    (o : gmap string value) :
  l <> l' -> deref (<[l := o]> h) l' = deref h l'.
Proof. intros Hne. unfold deref. by rewrite list_lookup_insert_ne. Qed.

Lemma renderable_allocated (h : list (gmap string value)) (r : nat) :
  renderable (deref h r) -> (r < length h)%nat.
Proof.
  intros ((story & Htext & _) & _). apply lookup_lt_is_Some.
  unfold deref in Htext. destruct (h !! r); [done|].
  simpl in Htext. by rewrite lookup_empty in Htext.
Qed.

Lemma mirrored_lm (o : gmap string value) : mirrored o !! "lm" = None.
Proof.
  unfold mirrored. destruct (o !! "lm") eqn:E; [|done]. apply lookup_delete_eq.
Qed.

Lemma mirrored_other (o : gmap string value) (name : string) :
  name <> "lm" -> name <> "rm" -> mirrored o !! name = o !! name.
Proof.
  intros Hl Hr. unfold mirrored, setattr. destruct (o !! "lm"); [|done].
  by rewrite lookup_delete_ne, lookup_insert_ne.
Qed.

Lemma mirror_placeable (o : gmap string value) :
  placeable o ->
  mirror_margins o = Ok (mirrored o) /\ renderable (mirrored o).
Proof.
  intros [((story & Htext & Hfree) & Hl & Hr & Ht & Hb) [l Hlm]].
  split; [by apply (mirror_margins_step o (VNum l))|].
  unfold renderable, num_or_unset in *.
  rewrite mirrored_lm.
  rewrite (mirrored_other o "text"), (mirrored_other o "tm"),
    (mirrored_other o "bm") by discriminate.
  split; [by exists story|]. split; [done|]. split; [|done].
  unfold mirrored, setattr. rewrite Hlm.
  by rewrite lookup_delete_ne, lookup_insert_eq.
Qed.

Lemma cards_on_app (page page' : list op) :
  cards_on (page ++ page') = (cards_on page + cards_on page')%nat.
Proof. unfold cards_on. by rewrite List.filter_app, length_app. Qed.

Lemma py_index_in_range {A} (l : list A) (n : Z) :
  0 <= n < Z.of_nat (length l) ->
  exists x, py_index l n = Ok x /\ l !! Z.to_nat n = Some x.
Proof.
  intros Hn. assert (E0 : (n <? 0) = false) by lia.
  unfold py_index. rewrite E0. cbv zeta. rewrite E0.
  destruct (l !! Z.to_nat n) as [x|] eqn:E; [by exists x|].
  apply lookup_ge_None in E. lia.
Qed.

(** The cards of one group, all different and placeable, are all drawn,
    nothing raised, other objects untouched: each card is drawn as the
    group's parity has it ([side]), at the cell of its position; it is
    still renderable afterwards and keeps the margins it was drawn
    with. *)
Lemma place_cards_ok (wrapOn : float -> float -> list flowable -> float)
    (pageSize cardSize : float * float) (i1 i2 : Z) (frame debug : bool) (g : nat)
    (cells : list (float * float)) :
  0 < i1 * i2 -> Z.of_nat (length cells) = i1 * i2 ->
  forall (rest : list nat) (j : nat) (h : list (gmap string value)) (canv : list op),
    NoDup rest ->
    (forall r, r ∈ rest -> placeable (deref h r)) ->
    exists h' added,
      place_cards wrapOn pageSize cardSize i1 i2 frame debug g cells rest j h canv
        = Ok (h', canv ++ added) /\
      cards_on added = length rest /\
      length h' = length h /\
      (forall r, r ∉ rest -> h' !! r = h !! r) /\
      (forall r, r ∈ rest ->
         renderable (deref h' r) /\
         forall name : string,
           name ∈ ["lm"; "rm"; "tm"; "bm"] ->
           deref h' r !! name = side g (deref h r) !! name) /\
      (forall (k r : nat), rest !! k = Some r ->
         exists x y,
           cells !! Z.to_nat (Z.of_nat (j + k) mod (i1 * i2)) = Some (x, y) /\
           drawn wrapOn (side g (deref h r)) x y cardSize ∈ added).
Proof.
  intros Hcap Hcells. induction rest as [|obj rest IH]; intros j h canv Hnd Hpl.
  - exists h, []. rewrite app_nil_r. split; [done|]. split; [done|].
    split; [done|]. split; [done|]. split.
    + intros r Hr. by apply elem_of_nil in Hr.
    + intros k r Hk. done.
  - apply NoDup_cons in Hnd as [Hnotin Hnd].
    assert (Hobj : placeable (deref h obj)) by (apply Hpl; by left).
    assert (Hlt : (obj < length h)%nat) by (apply renderable_allocated, Hobj).
    cbn [place_cards].
    (* the margins of a back card *)
    assert (exists h1,
              (if negb (g mod 2 =? 0)%nat
               then o ← mirror_margins (deref h obj); mret (<[obj := o]> h)
               else mret h) = Ok h1 /\
              deref h1 obj = side g (deref h obj) /\
              renderable (deref h1 obj) /\ length h1 = length h /\
              (forall r, r <> obj -> h1 !! r = h !! r))
      as (h1 & -> & Eside & Hren & Hlen1 & Hsame1).
    { unfold side. destruct (g mod 2 =? 0)%nat; cbn [negb].
      - exists h. split; [done|]. split; [done|]. split; [apply Hobj|done].
      - destruct (mirror_placeable _ Hobj) as [-> Hren].
        exists (<[obj := mirrored (deref h obj)]> h). split; [done|].
        rewrite deref_insert_eq by done. split; [done|]. split; [done|].
        split; [by rewrite length_insert|].
        intros r Hr. by rewrite list_lookup_insert_ne. }
    cbn [mbind result_bind].
    (* the cell *)
    unfold py_mod. destruct (Z.eqb_spec (i1 * i2) 0) as [|_]; [lia|].
    cbn [mbind result_bind].
    pose proof (Z.mod_pos_bound (Z.of_nat j) (i1 * i2) Hcap) as Hmod.
    destruct (py_index_in_range cells (Z.of_nat j mod (i1 * i2)) ltac:(lia))
      as ([x y] & -> & Hcell).
    cbn [mbind result_bind].
    (* the card *)
    set (label := if Z.of_nat j mod (i1 * i2) =? 0
                  then [drawString x (y + snd cardSize + float_of_int 6)%float
                          (map (fun a => a / mm)%float
                             [fst pageSize; snd pageSize; fst cardSize; snd cardSize])]
                  else []).
    assert (Elabel : (if Z.of_nat j mod (i1 * i2) =? 0
                      then add_size_info_label canv x y pageSize cardSize
                      else canv) = canv ++ label).
    { unfold label. destruct (_ =? 0); [done|by rewrite app_nil_r]. }
    rewrite Elabel.
    destruct (render_renderable wrapOn (deref h1 obj) (canv ++ label) x y cardSize
                frame debug Hren) as (o' & -> & Hren' & Hsame').
    cbn [mbind result_bind].
    set (border := if frame then [rect x y (fst cardSize) (snd cardSize)] else []).
    edestruct (IH (S j) (<[obj := o']> h1)
                 ((canv ++ label) ++ drawn wrapOn (deref h1 obj) x y cardSize :: border))
      as (h' & added & E & Hcount & Hlen & Hsame & Hpost & Hdrawn).
    + exact Hnd.
    + intros r Hr.
      assert (r <> obj) by (intros ->; contradiction).
      rewrite deref_insert_ne by done.
      unfold deref. rewrite Hsame1 by done. apply Hpl. by right.
    + exists h', (label ++ drawn wrapOn (deref h1 obj) x y cardSize :: border ++ added).
      split.
      { rewrite E. f_equal. f_equal. rewrite <- !app_assoc. reflexivity. }
      split.
      { rewrite cards_on_app. change (?a :: border ++ added) with ([a] ++ border ++ added).
        rewrite !cards_on_app, Hcount.
        assert (cards_on label = 0%nat) as ->
          by (unfold label; by destruct (_ =? 0)).
        assert (cards_on border = 0%nat) as ->
          by (unfold border; by destruct frame).
        unfold cards_on. simpl. lia. }
      split; [by rewrite Hlen, length_insert|].
      split.
      { intros r Hr. apply not_elem_of_cons in Hr as [Hne Hr].
        rewrite Hsame by done.
        rewrite list_lookup_insert_ne by done. by apply Hsame1. }
      split.
      { intros r Hr. apply elem_of_cons in Hr as [->|Hr].
        * assert (Eo : deref h' obj = o').
          { unfold deref. rewrite Hsame by done.
            rewrite list_lookup_insert_eq by lia. done. }
          rewrite Eo. split; [exact Hren'|].
          intros name Hname. rewrite (Hsame' name Hname). by rewrite Eside.
        * assert (r <> obj) by (intros ->; contradiction).
          destruct (Hpost r Hr) as [Hr1 Hr2]. split; [exact Hr1|].
          intros name Hname. rewrite (Hr2 name Hname).
          rewrite deref_insert_ne by done.
          unfold deref. by rewrite Hsame1. }
      intros k r Hk. destruct k as [|k].
      * cbn [lookup list_lookup] in Hk. simplify_eq.
        exists x, y. rewrite Nat.add_0_r. split; [exact Hcell|].
        rewrite <- Eside. apply elem_of_app. right. by left.
      * cbn [lookup list_lookup] in Hk.
        destruct (Hdrawn k r Hk) as (x' & y' & Hc' & Hd').
        exists x', y'.
        replace (j + S k)%nat with (S j + k)%nat by lia.
        split; [exact Hc'|].
        assert (r <> obj).
        { intros ->. apply Hnotin. by apply list_elem_of_lookup_2 in Hk. }
        rewrite deref_insert_ne in Hd' by done.
        assert (Er : deref h1 r = deref h r) by (unfold deref; by rewrite Hsame1).
        rewrite Er in Hd'.
        apply elem_of_app. right. right. apply elem_of_app. by right.
Qed.

Lemma interleave_perm {A} (fronts : list A) :
  forall backs : list A, interleave fronts backs ≡ₚ fronts ++ backs.
Proof.
  induction fronts as [|x fronts IH]; intros [|y backs]; simpl; try done.
  - by rewrite app_nil_r.
  - rewrite IH. by rewrite <- Permutation_middle.
Qed.

Lemma ungroup_perm {A} (n : nat) :
  forall groups : list (list A),
    length groups = (2 * n)%nat -> ungroup groups ≡ₚ concat groups.
Proof.
  induction n as [|n IH]; intros groups Hlen.
  - destruct groups; [done|simpl in Hlen; lia].
  - destruct groups as [|f [|b groups]]; [simpl in Hlen; lia..|].
    cbn [ungroup concat]. rewrite interleave_perm, IH by (simpl in Hlen; lia).
    by rewrite app_assoc.
Qed.

(** For a positive capacity the groups hold the faces of the deck, each
    as often as the deck does. *)
Lemma regroup_perm {A} (cards : list A) (i1 i2 : Z) :
  0 < i1 * i2 ->
  exists groups : list (list A),
    regroup cards i1 i2 = Ok groups /\
    length groups = (2 * S ((length cards - 1) / (2 * Z.to_nat (i1 * i2))))%nat /\
    concat groups ≡ₚ cards.
Proof.
  intros Hcap. set (cap := Z.to_nat (i1 * i2)).
  assert (HC : (0 < 2 * cap)%nat) by lia.
  assert (HZ : 2 * i1 * i2 = Z.of_nat (2 * cap)) by lia.
  set (M := ((length cards - 1) / (2 * cap))%nat).
  eexists. split; [by apply (regroup_closed cards i1 i2 (2 * cap))|].
  fold M.
  assert (Hlen : length
                   (full_groups cards (2 * cap) 0 M
                      ++ [slice2 cards (M * (2 * cap)) None;
                          slice2 cards (M * (2 * cap) + 1) None])
                 = (2 * S M)%nat).
  { rewrite length_app, length_full_groups. simpl. lia. }
  split; [exact Hlen|].
  rewrite <- (ungroup_perm (S M)) by exact Hlen.
  rewrite ungroup_full_groups. cbn [ungroup Nat.add Nat.mul].
  rewrite interleave_slices_open, app_nil_r, drop_0. by rewrite take_drop.
Qed.

(** The groups of a deck, all cards different and placeable, are all
    shown: a page for each group, a card drawn for each face; afterwards
    every card is still renderable and has the margins of the side it
    was drawn on. *)
Lemma place_groups_ok (wrapOn : float -> float -> list flowable -> float)
    (pageSize cardSize : float * float) (i1 i2 : Z) (frame debug : bool) :
  0 < i1 <= max_float -> 0 < i2 <= max_float ->
  forall (cardGroups : list (list nat)) (g : nat)
         (h : list (gmap string value)) (pages : list (list op)),
    NoDup (concat cardGroups) ->
    (forall r, r ∈ concat cardGroups -> placeable (deref h r)) ->
    exists h' new,
      place_groups wrapOn pageSize cardSize i1 i2 frame debug g cardGroups h pages
        = Ok (h', pages ++ new) /\
      map cards_on new = map length cardGroups /\
      length h' = length h /\
      (forall r, r ∉ concat cardGroups -> h' !! r = h !! r) /\
      forall (i : nat) (cardGroup : list nat) (r : nat),
        cardGroups !! i = Some cardGroup -> r ∈ cardGroup ->
        renderable (deref h' r) /\
        forall name : string,
          name ∈ ["lm"; "rm"; "tm"; "bm"] ->
          deref h' r !! name = side (g + i) (deref h r) !! name.
Proof.
  intros H1 H2.
  induction cardGroups as [|cardGroup cardGroups IH]; intros g h pages Hnd Hpl.
  - exists h, []. rewrite app_nil_r. repeat split; done.
  - cbn [concat] in Hnd, Hpl. apply NoDup_app in Hnd as (Hnd1 & Hdisj & Hnd2).
    rewrite place_groups_origin by lia.
    edestruct (place_cards_ok wrapOn pageSize cardSize i1 i2 frame debug g
                 (cells g (grid_origin pageSize cardSize i1 i2).1
                    (grid_origin pageSize cardSize i1 i2).2
                    (fst cardSize) (snd cardSize) i1 i2))
      with (rest := cardGroup) (j := 0%nat) (h := h) (canv := @nil op)
      as (h1 & canv & -> & Hcount & Hlen1 & Hsame1 & Hpost1 & _).
    + nia.
    + rewrite length_cells. nia.
    + exact Hnd1.
    + intros r Hr. apply Hpl. apply elem_of_app. by left.
    + cbn [mbind result_bind app].
      edestruct (IH (S g) h1) as (h' & new & -> & Hmap & Hlen & Hsame & Hpost).
      * exact Hnd2.
      * intros r Hr. unfold deref. rewrite Hsame1.
        -- apply Hpl. apply elem_of_app. by right.
        -- intros Hin. exact (Hdisj r Hin Hr).
      * eexists h', (_ :: new). split; [by rewrite <- app_assoc|].
        split.
        { cbn [map]. f_equal; [|exact Hmap].
          destruct frame; rewrite ?cards_on_app, Hcount;
            unfold cards_on; simpl; lia. }
        split; [by rewrite Hlen|].
        split.
        { intros r Hr. apply not_elem_of_app in Hr as [Hr1 Hr2].
          rewrite Hsame by done. by apply Hsame1. }
        intros i group r Hi Hr. destruct i as [|i].
        -- cbn [lookup list_lookup] in Hi. simplify_eq.
           rewrite Nat.add_0_r.
           assert (Er : deref h' r = deref h1 r).
           { unfold deref. rewrite Hsame; [done|].
             intros Hin. exact (Hdisj r Hr Hin). }
           rewrite Er. by apply Hpost1.
        -- cbn [lookup list_lookup] in Hi.
           destruct (Hpost i group r Hi Hr) as [Hr1 Hr2].
           split; [exact Hr1|]. intros name Hname. rewrite (Hr2 name Hname).
           replace (S g + i)%nat with (g + S i)%nat by lia.
           assert (Er : deref h1 r = deref h r).
           { unfold deref. rewrite Hsame1; [done|].
             intros Hin. apply (Hdisj r Hin).
             apply list_elem_of_In, in_concat. exists group.
             split; apply list_elem_of_In; [|done].
             by apply list_elem_of_lookup_2 in Hi. }
           by rewrite Er.
Qed.

(** What a back card draws: its frame starts at the class margin of 3 mm
    and gives the former left margin away on the right. *)
Lemma drawn_mirrored (wrapOn : float -> float -> list flowable -> float)
    (o : gmap string value) (l : float) (x0 y0 : float) (size : float * float) :
  o !! "lm" = Some (VNum l) ->
  drawn wrapOn (mirrored o) x0 y0 size
  = drawOn (fst size - float_of_int 3 * mm - l)%float
      (y0 + snd size - margin o "tm" - y0 - margin o "bm")%float
      (resized (story_of o))
      (x0 + float_of_int 3 * mm)%float
      (y0 + snd size - margin o "tm"
       - wrapOn (fst size - float_of_int 3 * mm - l)%float
           (y0 + snd size - margin o "tm" - y0 - margin o "bm")%float
           (resized (story_of o)))%float.
Proof.
  intros Hlm.
  assert (El : margin (mirrored o) "lm" = (float_of_int 3 * mm)%float).
  { unfold margin, getattr. by rewrite mirrored_lm, Card_class_lm. }
  assert (Er : margin (mirrored o) "rm" = l).
  { unfold margin, getattr, mirrored, setattr. rewrite Hlm.
    by rewrite lookup_delete_ne, lookup_insert_eq. }
  assert (Et : margin (mirrored o) "tm" = margin o "tm").
  { unfold margin, getattr. by rewrite mirrored_other. }
  assert (Eb : margin (mirrored o) "bm" = margin o "bm").
  { unfold margin, getattr. by rewrite mirrored_other. }
  assert (Es : story_of (mirrored o) = story_of o).
  { unfold story_of. by rewrite mirrored_other. }
  unfold drawn. by rewrite El, Er, Et, Eb, Es.
Qed.

(** C8 (amended): in a sheet group of placeable cards, the imposer applies
    the margin step to every card of a back-pass (odd) group and to no
    card of a front-pass (even) group, before it renders the card at the
    cell of its position.  A back card with a left margin [l] of its own
    ends with [l] as right margin and without a left margin of its own,
    which then reads as the class default of 3 mm, not as the former
    right margin; it is drawn with these margins.  A front card keeps its
    margins.  Top and bottom margins stay as they were. *)
Theorem mirror_margins_effect (wrapOn : float -> float -> list flowable -> float)
    (pageSize cardSize : float * float) (i1 i2 : Z) (frame debug : bool) (g : nat)
    (cells : list (float * float)) (cardGroup : list nat)
    (h : list (gmap string value)) :
  0 < i1 * i2 -> Z.of_nat (length cells) = i1 * i2 ->
  NoDup cardGroup ->
  (forall r, r ∈ cardGroup -> placeable (deref h r)) ->
  exists h' canv,
    place_cards wrapOn pageSize cardSize i1 i2 frame debug g cells cardGroup 0 h []
      = Ok (h', canv) /\
    forall (j r : nat) (l : float),
      cardGroup !! j = Some r -> deref h r !! "lm" = Some (VNum l) ->
      exists x y,
        cells !! Z.to_nat (Z.of_nat j mod (i1 * i2)) = Some (x, y) /\
        deref h' r !! "tm" = deref h r !! "tm" /\
        deref h' r !! "bm" = deref h r !! "bm" /\
        if (g mod 2 =? 0)%nat
        then
          deref h' r !! "lm" = Some (VNum l) /\
          deref h' r !! "rm" = deref h r !! "rm" /\
          drawn wrapOn (deref h r) x y cardSize ∈ canv
        else
          deref h' r !! "lm" = None /\
          getattr (deref h' r) "lm" = Ok (VNum (float_of_int 3 * mm)) /\
          deref h' r !! "rm" = Some (VNum l) /\
          drawOn (fst cardSize - float_of_int 3 * mm - l)%float
            (y + snd cardSize - margin (deref h r) "tm" - y
             - margin (deref h r) "bm")%float
            (resized (story_of (deref h r)))
            (x + float_of_int 3 * mm)%float
            (y + snd cardSize - margin (deref h r) "tm"
             - wrapOn (fst cardSize - float_of_int 3 * mm - l)%float
                 (y + snd cardSize - margin (deref h r) "tm" - y
                  - margin (deref h r) "bm")%float
                 (resized (story_of (deref h r))))%float
          ∈ canv.
Proof.
  intros Hcap Hcells Hnd Hpl.
  destruct (place_cards_ok wrapOn pageSize cardSize i1 i2 frame debug g cells
              Hcap Hcells cardGroup 0 h [] Hnd Hpl)
    as (h' & canv & E & _ & _ & _ & Hpost & Hdrawn).
  exists h', canv. split; [exact E|].
  intros j r l Hj Hlm.
  destruct (Hdrawn j r Hj) as (x & y & Hcell & Hd). cbn [Nat.add] in Hcell.
  exists x, y. split; [exact Hcell|].
  assert (Hin : forall name : string,
            In name ["lm"; "rm"; "tm"; "bm"] -> name ∈ ["lm"; "rm"; "tm"; "bm"])
    by (intros name; apply list_elem_of_In).
  destruct (Hpost r (list_elem_of_lookup_2 _ _ _ Hj)) as [_ Hm].
  pose proof (Hm "lm" ltac:(apply Hin; simpl; tauto)) as Hl'.
  pose proof (Hm "rm" ltac:(apply Hin; simpl; tauto)) as Hr'.
  pose proof (Hm "tm" ltac:(apply Hin; simpl; tauto)) as Ht'.
  pose proof (Hm "bm" ltac:(apply Hin; simpl; tauto)) as Hb'.
  unfold side in *. destruct (g mod 2 =? 0)%nat.
  - split; [exact Ht'|]. split; [exact Hb'|].
    split; [by rewrite Hl'|]. split; [exact Hr'|exact Hd].
  - rewrite mirrored_other in Ht', Hb' by discriminate.
    rewrite mirrored_lm in Hl'.
    split; [exact Ht'|]. split; [exact Hb'|].
    split; [exact Hl'|]. split.
    { unfold getattr. by rewrite Hl', Card_class_lm. }
    split.
    { rewrite Hr'. unfold mirrored, setattr. rewrite Hlm.
      by rewrite lookup_delete_ne, lookup_insert_eq. }
    by rewrite <- (drawn_mirrored wrapOn (deref h r) l x y cardSize Hlm).
Qed.

Lemma mirror_margins_effect_witness :
  exists h' canv,
    place_cards (fun _ _ _ => float_of_int 10) (float_of_int 842, float_of_int 595) (float_of_int 258, float_of_int 167) 1 1 false false 1
      [(float_of_int 20, float_of_int 40)] [0%nat] 0
      [card_with (float_of_int 258, float_of_int 167) false [Paragraph "Answer 1:" fine]] []
      = Ok (h', canv) /\
    forall (j r : nat) (l : float),
      [0%nat] !! j = Some r ->
      deref [card_with (float_of_int 258, float_of_int 167) false [Paragraph "Answer 1:" fine]] r !! "lm"
        = Some (VNum l) ->
      exists x y,
        [(float_of_int 20, float_of_int 40)] !! Z.to_nat (Z.of_nat j mod (1 * 1))
          = Some (x, y) /\
        deref h' r !! "tm"
          = deref [card_with (float_of_int 258, float_of_int 167) false [Paragraph "Answer 1:" fine]] r !! "tm" /\
        deref h' r !! "bm"
          = deref [card_with (float_of_int 258, float_of_int 167) false [Paragraph "Answer 1:" fine]] r !! "bm" /\
        if (1 mod 2 =? 0)%nat
        then
          deref h' r !! "lm" = Some (VNum l) /\
          deref h' r !! "rm"
            = deref [card_with (float_of_int 258, float_of_int 167) false [Paragraph "Answer 1:" fine]] r !! "rm" /\
          drawn (fun _ _ _ => float_of_int 10)
            (deref [card_with (float_of_int 258, float_of_int 167) false [Paragraph "Answer 1:" fine]] r) x y (float_of_int 258, float_of_int 167)
          ∈ canv
        else
          deref h' r !! "lm" = None /\
          getattr (deref h' r) "lm" = Ok (VNum (float_of_int 3 * mm)) /\
          deref h' r !! "rm" = Some (VNum l) /\
          drawOn (fst (float_of_int 258, float_of_int 167) - float_of_int 3 * mm - l)%float
            (y + snd (float_of_int 258, float_of_int 167)
             - margin (deref [card_with (float_of_int 258, float_of_int 167) false [Paragraph "Answer 1:" fine]] r) "tm"
             - y
             - margin (deref [card_with (float_of_int 258, float_of_int 167) false [Paragraph "Answer 1:" fine]] r) "bm")%float
            (resized
               (story_of (deref [card_with (float_of_int 258, float_of_int 167) false [Paragraph "Answer 1:" fine]] r)))
            (x + float_of_int 3 * mm)%float
            (y + snd (float_of_int 258, float_of_int 167)
             - margin (deref [card_with (float_of_int 258, float_of_int 167) false [Paragraph "Answer 1:" fine]] r) "tm"
             - (fun _ _ _ => float_of_int 10)
                 (fst (float_of_int 258, float_of_int 167) - float_of_int 3 * mm - l)%float
                 (y + snd (float_of_int 258, float_of_int 167)
                  - margin (deref [card_with (float_of_int 258, float_of_int 167) false [Paragraph "Answer 1:" fine]] r) "tm"
                  - y
                  - margin (deref [card_with (float_of_int 258, float_of_int 167) false [Paragraph "Answer 1:" fine]] r) "bm")%float
                 (resized
                    (story_of
                       (deref [card_with (float_of_int 258, float_of_int 167) false [Paragraph "Answer 1:" fine]] r))))%float
          ∈ canv.
Proof.
  apply (mirror_margins_effect (fun _ _ _ => float_of_int 10) (float_of_int 842, float_of_int 595) (float_of_int 258, float_of_int 167) 1 1
           false false 1 [(float_of_int 20, float_of_int 40)] [0%nat]
           [card_with (float_of_int 258, float_of_int 167) false [Paragraph "Answer 1:" fine]]).
  - lia.
  - reflexivity.
  - apply (bool_decide_unpack _). vm_compute. reflexivity.
  - intros r Hr. apply list_elem_of_singleton in Hr as ->.
    split; [split; [|repeat split]|by exists (float_of_int 4 * mm)%float].
    exists [Paragraph "Answer 1:" fine]. split; [reflexivity|].
    intros f Hf. apply list_elem_of_singleton in Hf. discriminate.
Defined.



(** With room for a card and two faces or more, the first face opens the
    first front sheet and the second face the first back sheet. *)
Lemma regroup_first_sheet {A} (c0 c1 : A) (cards : list A) (i1 i2 : Z) :
  0 < i1 * i2 ->
  exists (fronts backs : list A) (groups : list (list A)),
    regroup (c0 :: c1 :: cards) i1 i2 = Ok ((c0 :: fronts) :: (c1 :: backs) :: groups).
Proof.
  intros Hcap.
  destruct (Z.to_nat (i1 * i2)) as [|cap] eqn:Ecap; [lia|].
  rewrite (regroup_closed (c0 :: c1 :: cards) i1 i2 (S (S (2 * cap)))) by lia.
  destruct ((length (c0 :: c1 :: cards) - 1) / S (S (2 * cap)))%nat as [|M].
  - cbn [full_groups app Nat.mul Nat.add]. unfold slice2.
    cbn [drop stride2]. eexists _, _, _. reflexivity.
  - cbn [full_groups app Nat.mul Nat.add]. unfold slice2.
    cbn [take drop stride2 app]. eexists _, _, _. reflexivity.
Qed.

(** X23: imposing is not repeatable.  A deck of two or more different
    placeable cards is imposed without an exception, but the back cards
    come out of it without a left margin of their own: a second call of
    [layout] on the same cards raises AttributeError, at the first card of
    the first back sheet, whatever the frame and debug flags. *)
Theorem layout_not_repeatable (wrapOn : float -> float -> list flowable -> float)
    (h : list (gmap string value)) (cards : list nat)
    (pageSize cardSize : float * float) (autoRotate frame debug : bool)
    (p : float * float) (i1 i2 : Z) (c0 c1 : nat) (rest : list nat) :
  maximize_cards_on_page cardSize pageSize (Some nppm) autoRotate = Ok (p, i1, i2) ->
  0 < i1 -> 0 < i2 ->
  cards = c0 :: c1 :: rest ->
  NoDup cards ->
  (forall r, r ∈ cards -> placeable (deref h r)) ->
  exists h' pages,
    layout wrapOn h cards pageSize cardSize autoRotate frame debug = Ok (h', pages) /\
    forall frame' debug' : bool,
      layout wrapOn h' cards pageSize cardSize autoRotate frame' debug'
      = Raise AttributeError.
Proof.
  intros Efit H1 H2 -> Hnd Hpl.
  destruct (maximize_bounds _ _ _ _ _ _ _ Efit) as [Hb1 Hb2].
  destruct (regroup_first_sheet c0 c1 rest i1 i2 ltac:(nia))
    as (fronts & backs & more & Eg).
  destruct (regroup_perm (c0 :: c1 :: rest) i1 i2 ltac:(nia))
    as (groups & Eg' & _ & Hperm).
  rewrite Eg in Eg'. injection Eg' as <-.
  assert (Hnd' : NoDup (concat ((c0 :: fronts) :: (c1 :: backs) :: more)))
    by (by rewrite Hperm).
  destruct (place_groups_ok wrapOn p cardSize i1 i2 frame debug
              ltac:(lia) ltac:(lia)
              ((c0 :: fronts) :: (c1 :: backs) :: more) 0 h [])
    as (h' & pages & E & _ & _ & _ & Hpost).
  { exact Hnd'. }
  { intros r Hr. apply Hpl. by rewrite <- Hperm. }
  exists h', pages. split.
  { unfold layout. rewrite Efit. cbn [mbind result_bind]. rewrite Eg.
    cbn [mbind result_bind]. exact E. }
  intros frame' debug'.
  unfold layout. rewrite Efit. cbn [mbind result_bind]. rewrite Eg.
  cbn [mbind result_bind].
  cbn [concat] in Hnd'. apply NoDup_app in Hnd' as (Hnd1 & Hdisj & _).
  assert (Hlm : "lm" ∈ ["lm"; "rm"; "tm"; "bm"]) by (by left).
  (* the first front sheet is placed again *)
  rewrite place_groups_origin by assumption.
  edestruct (place_cards_ok wrapOn p cardSize i1 i2 frame' debug' 0
               (cells 0 (grid_origin p cardSize i1 i2).1
                  (grid_origin p cardSize i1 i2).2
                  (fst cardSize) (snd cardSize) i1 i2))
    with (rest := c0 :: fronts) (j := 0%nat) (h := h') (canv := @nil op)
    as (h1 & canv & -> & _ & _ & Hsame1 & _).
  { nia. }
  { rewrite length_cells. nia. }
  { exact Hnd1. }
  { intros r Hr.
    destruct (Hpost 0%nat (c0 :: fronts) r eq_refl Hr) as [Hren Hm].
    split; [exact Hren|]. rewrite (Hm "lm" Hlm).
    apply Hpl. rewrite <- Hperm. cbn [concat]. apply elem_of_app. by left. }
  cbn [mbind result_bind].
  (* the first card of the first back sheet has no left margin to delete *)
  rewrite place_groups_origin by assumption. cbn [place_cards].
  change (negb (1 mod 2 =? 0)%nat) with true. cbv iota.
  assert (Hc1 : c1 ∈ c1 :: backs) by (by left).
  assert (Hnone : deref h1 c1 !! "lm" = None).
  { destruct (Hpost 1%nat (c1 :: backs) c1 eq_refl Hc1) as [_ Hm].
    unfold deref. rewrite Hsame1.
    - fold (deref h' c1). rewrite (Hm "lm" Hlm). apply mirrored_lm.
    - intros Hin. apply (Hdisj c1 Hin). cbn [concat]. apply elem_of_app. by left. }
  by rewrite (mirror_margins_class_only _ Hnone).
Qed.

Lemma layout_not_repeatable_witness :
  exists h' pages,
    layout (fun _ _ _ => float_of_int 0)
      [card_with (float_of_int 258, float_of_int 167) false [Paragraph "100 exercises" h1];
       card_with (float_of_int 258, float_of_int 167) false []]
      [0; 1]%nat (float_of_int 842, float_of_int 595) (float_of_int 258, float_of_int 167) true true false = Ok (h', pages) /\
    forall frame' debug' : bool,
      layout (fun _ _ _ => float_of_int 0) h' [0; 1]%nat (float_of_int 842, float_of_int 595) (float_of_int 258, float_of_int 167) true frame' debug'
      = Raise AttributeError.
Proof.
  apply (layout_not_repeatable (fun _ _ _ => float_of_int 0)
           [card_with (float_of_int 258, float_of_int 167) false [Paragraph "100 exercises" h1];
            card_with (float_of_int 258, float_of_int 167) false []]
           [0; 1]%nat (float_of_int 842, float_of_int 595) (float_of_int 258, float_of_int 167) true true false (float_of_int 842, float_of_int 595) 3 3
           0%nat 1%nat []).
  - vm_compute. reflexivity.
  - lia.
  - lia.
  - reflexivity.
  - apply (bool_decide_unpack _). vm_compute. reflexivity.
  - intros r Hr.
    assert (r = 0 \/ r = 1)%nat as [-> | ->]
      by (apply elem_of_cons in Hr as [->|Hr];
          [by left|apply list_elem_of_singleton in Hr; by right]).
    + split; [split; [|repeat split]|by exists (float_of_int 4 * mm)%float].
      exists [Paragraph "100 exercises" h1]. split; [reflexivity|].
      intros f Hf. apply list_elem_of_singleton in Hf. discriminate.
    + split; [split; [|repeat split]|by exists (float_of_int 4 * mm)%float].
      exists []. split; [reflexivity|].
      intros f Hf. by apply elem_of_nil in Hf.
Defined.

(** ** The whole script on a document without images *)

Lemma faces_pair_refs (n : nat) :
  forall base : nat, faces (pair_refs base n) = seq base (2 * n).
Proof.
  induction n as [|n IH]; intros base; [done|].
  replace (2 * S n)%nat with (S (S (2 * n))) by lia.
  cbn [pair_refs faces flat_map seq app fst snd].
  f_equal. f_equal. apply IH.
Qed.



Lemma length_card_objs (cardSize : float * float) (verbose : bool)
    (stories : list (list flowable * list flowable)) :
  length (card_objs cardSize verbose stories) = (2 * length stories)%nat.
Proof. induction stories as [|st stories IH]; simpl; [done|]. rewrite IH. lia. Qed.

Lemma length_item_stories (items : list item) :
  forall i : nat, length (item_stories i items) = length items.
Proof. induction items as [|it items IH]; intros i; simpl; [done|]. by rewrite IH. Qed.







(** ** Reversing a sequence *)

(** X19: [reverse_seq] keeps the length; reversing twice gives a list, a
    tuple or a string back unchanged (another iterable comes back as the
    list of its elements); on a list it is the reversal [layout] uses for
    its rows and columns, and on a pair it exchanges the two components. *)
Theorem reverse_seq_py_involutive {A} (seq : pyseq A) :
  py_len (reverse_seq_py seq) = py_len seq /\
  reverse_seq_py (reverse_seq_py seq)
    = match seq with PyIter l => PyList l | _ => seq end /\
  (forall l : list A, reverse_seq_py (PyIter l) = PyList (reverse_seq l)) /\
  (forall x y : A,
     reverse_seq_py (PyTuple [x; y])
     = PyTuple [fst (reverse_seq2 (x, y)); snd (reverse_seq2 (x, y))]).
Proof.
  split; [|split; [|split]].
  - destruct seq as [l|l|s|l]; simpl; rewrite ?length_reverse; try done.
    rewrite <- (String.string_of_list_ascii_of_string s) at 2.
    generalize (String.list_ascii_of_string s). intros l.
    assert (H : forall l, String.length (String.string_of_list_ascii l) = length l).
    { clear. induction l as [|c l IH]; simpl; [done|]. by rewrite IH. }
    by rewrite !H, length_reverse.
  - destruct seq as [l|l|s|l]; simpl; rewrite ?reverse_involutive; try done.
    rewrite String.list_ascii_of_string_of_list_ascii, reverse_involutive.
    by rewrite String.string_of_list_ascii_of_string.
  - done.
  - done.
Qed.

(** ** What the deck builder allocates *)

Lemma getattr_kwDict (cardSize : float * float) (verbose : bool) (story : list flowable) :
  getattr (card_with cardSize verbose story) "lm" = Ok (VNum (float_of_int 4 * mm)) /\
  getattr (card_with cardSize verbose story) "rm" = Ok (VNum (float_of_int 4 * mm)) /\
  getattr (card_with cardSize verbose story) "width" = Ok (VNum (fst cardSize)) /\
  getattr (card_with cardSize verbose story) "height" = Ok (VNum (snd cardSize)) /\
  getattr (card_with cardSize verbose story) "frame" = Ok (VBool false) /\
  getattr (card_with cardSize verbose story) "verbose" = Ok (VBool verbose).
Proof. destruct cardSize as [cw ch]. repeat split. Qed.

(** X20: the builder only allocates: the store grows by two cards for the
    cover and two for each item, the objects that existed keep their
    state, and the faces it yields are new objects, all different, each
    with left and right margins of 4 mm, the card size as width and
    height, and no frame. *)
Theorem make_cards_allocates (cardSize : float * float) (cover : list flowable)
    (items : list item) (verbose : bool) (h : list (gmap string value)) :
  length (make_cards_platypus cardSize cover items verbose h).2
    = (length h + 2 * (length items + 1))%nat /\
  (forall r, (r < length h)%nat ->
     (make_cards_platypus cardSize cover items verbose h).2 !! r = h !! r) /\
  NoDup (faces (make_cards_platypus cardSize cover items verbose h).1) /\
  forall r, r ∈ faces (make_cards_platypus cardSize cover items verbose h).1 ->
    (length h <= r < length h + 2 * (length items + 1))%nat /\
    getattr (deref (make_cards_platypus cardSize cover items verbose h).2 r) "lm"
      = Ok (VNum (float_of_int 4 * mm)) /\
    getattr (deref (make_cards_platypus cardSize cover items verbose h).2 r) "rm"
      = Ok (VNum (float_of_int 4 * mm)) /\
    getattr (deref (make_cards_platypus cardSize cover items verbose h).2 r) "width"
      = Ok (VNum (fst cardSize)) /\
    getattr (deref (make_cards_platypus cardSize cover items verbose h).2 r) "height"
      = Ok (VNum (snd cardSize)) /\
    getattr (deref (make_cards_platypus cardSize cover items verbose h).2 r) "frame"
      = Ok (VBool false).
Proof.
  rewrite make_cards_platypus_closed. cbn [fst snd].
  set (stories := (cover, []) :: item_stories 0 items).
  assert (Hlen : length (card_objs cardSize verbose stories)
                 = (2 * (length items + 1))%nat).
  { rewrite length_card_objs. unfold stories. simpl.
    rewrite length_item_stories. lia. }
  rewrite faces_pair_refs.
  split; [by rewrite length_app, Hlen|].
  split; [intros r Hr; by rewrite lookup_app_l|].
  split; [apply NoDup_seq|].
  intros r Hr. apply elem_of_seq in Hr. split; [lia|].
  assert (exists k, r = (length h + k)%nat /\ (k < 2 * (length items + 1))%nat)
    as (k & -> & Hk) by (exists (r - length h)%nat; lia).
  rewrite deref_app_r.
  destruct (card_objs cardSize verbose stories !! k) as [o|] eqn:Eo;
    [|apply lookup_ge_None in Eo; lia].
  assert (exists story, o = card_with cardSize verbose story) as [story ->].
  { clear -Eo. revert k Eo. induction stories as [|st stories IH]; intros k Eo; [done|].
    destruct k as [|[|k]]; simpl in Eo.
    - simplify_eq. by eexists.
    - simplify_eq. by eexists.
    - by apply (IH k). }
  simpl. pose proof (getattr_kwDict cardSize verbose story) as (? & ? & ? & ? & ? & _).
  done.
Qed.


(** ** Where a card draws its story *)



(** The same card, with the numbers worked out. *)
Example render_question_card :
  render (fun _ _ _ => float_of_int 10)
    (card_with (float_of_int 258, float_of_int 167) false [Paragraph "Question:" fine; Str "1. Import pandas"])
    [] (float_of_int 20) (float_of_int 40) (float_of_int 258, float_of_int 167) true false
  ≫= (fun r => mret r.2)
  = Ok [ drawOn (float_of_int 258 - float_of_int 4 * mm - float_of_int 4 * mm)%float
           (float_of_int 40 + float_of_int 167 - float_of_int 3 * mm
            - float_of_int 40 - float_of_int 3 * mm)%float
           [Paragraph "Question:" fine; Paragraph "1. Import pandas" bt]
           (float_of_int 20 + float_of_int 4 * mm)%float
           (float_of_int 40 + float_of_int 167 - float_of_int 3 * mm
            - float_of_int 10)%float;
         rect (float_of_int 20) (float_of_int 40) (float_of_int 258) (float_of_int 167) ].
Proof. vm_compute. reflexivity. Qed.

(** ** A card on a back sheet *)

(** X22: a card on a back sheet, with a left margin [l] of its own, is
    drawn after the margin step with the class margin of 3 mm on its left
    and [l] on its right, whatever its own right margin was: the frame
    starts 3 mm right of the cell and is [3 mm + l] narrower than the
    card. *)
Theorem back_card_frame (wrapOn : float -> float -> list flowable -> float)
    (obj : gmap string value) (l : float) (canv : list op) (x0 y0 : float)
    (size : float * float) (frame debug : bool) :
  renderable obj -> obj !! "lm" = Some (VNum l) ->
  exists obj' self',
    mirror_margins obj = Ok obj' /\
    render wrapOn obj' canv x0 y0 size frame debug
    = Ok (self',
          canv
            ++ drawOn (fst size - float_of_int 3 * mm - l)%float
                 (y0 + snd size - margin obj "tm" - y0 - margin obj "bm")%float
                 (resized (story_of obj))
                 (x0 + float_of_int 3 * mm)%float
                 (y0 + snd size - margin obj "tm"
                  - wrapOn (fst size - float_of_int 3 * mm - l)%float
                      (y0 + snd size - margin obj "tm" - y0 - margin obj "bm")%float
                      (resized (story_of obj)))%float
            :: (if frame then [rect x0 y0 (fst size) (snd size)] else [])).
Proof.
  intros Hren Hlm.
  destruct (mirror_placeable obj) as [Em Hren'].
  { split; [exact Hren|by exists l]. }
  destruct (render_renderable wrapOn (mirrored obj) canv x0 y0 size frame debug Hren')
    as (self' & Er & _).
  exists (mirrored obj), self'. split; [exact Em|]. rewrite Er.
  by rewrite (drawn_mirrored wrapOn obj l x0 y0 size Hlm).
Qed.

Lemma back_card_frame_witness :
  exists obj' self',
    mirror_margins (card_with (float_of_int 258, float_of_int 167) false [Paragraph "Answer 1:" fine])
      = Ok obj' /\
    render (fun _ _ _ => float_of_int 10) obj' [] (float_of_int 20) (float_of_int 40)
      (float_of_int 258, float_of_int 167) false false
    = Ok (self',
          []
            ++ drawOn (fst (float_of_int 258, float_of_int 167) - float_of_int 3 * mm - float_of_int 4 * mm)%float
                 (float_of_int 40 + snd (float_of_int 258, float_of_int 167)
                  - margin (card_with (float_of_int 258, float_of_int 167) false [Paragraph "Answer 1:" fine]) "tm"
                  - float_of_int 40
                  - margin (card_with (float_of_int 258, float_of_int 167) false [Paragraph "Answer 1:" fine]) "bm")%float
                 (resized
                    (story_of (card_with (float_of_int 258, float_of_int 167) false [Paragraph "Answer 1:" fine])))
                 (float_of_int 20 + float_of_int 3 * mm)%float
                 (float_of_int 40 + snd (float_of_int 258, float_of_int 167)
                  - margin (card_with (float_of_int 258, float_of_int 167) false [Paragraph "Answer 1:" fine]) "tm"
                  - (fun _ _ _ => float_of_int 10)
                      (fst (float_of_int 258, float_of_int 167) - float_of_int 3 * mm - float_of_int 4 * mm)%float
                      (float_of_int 40 + snd (float_of_int 258, float_of_int 167)
                       - margin (card_with (float_of_int 258, float_of_int 167) false [Paragraph "Answer 1:" fine]) "tm"
                       - float_of_int 40
                       - margin (card_with (float_of_int 258, float_of_int 167) false [Paragraph "Answer 1:" fine]) "bm")%float
                      (resized
                         (story_of (card_with (float_of_int 258, float_of_int 167) false [Paragraph "Answer 1:" fine]))))%float
            :: (if false
                then [rect (float_of_int 20) (float_of_int 40) (fst (float_of_int 258, float_of_int 167)) (snd (float_of_int 258, float_of_int 167))]
                else [])).
Proof.
  apply (back_card_frame (fun _ _ _ => float_of_int 10)
           (card_with (float_of_int 258, float_of_int 167) false [Paragraph "Answer 1:" fine])
           (float_of_int 4 * mm)%float [] (float_of_int 20) (float_of_int 40)
           (float_of_int 258, float_of_int 167) false false).
  - split; [|repeat split].
    exists [Paragraph "Answer 1:" fine]. split; [reflexivity|].
    intros f Hf. apply list_elem_of_singleton in Hf. discriminate.
  - reflexivity.
Defined.
